(** * The HelmChart controller of clusternet, embedded in Rocq

    Source: [pkg/controllers/apps/helmchart/helmchart.go].

    The controller is stateful Go code that talks to four collaborators
    through interfaces: the rate limited work queue, the lister of the
    informer cache, the clientset of the API server and the pluggable
    [SyncHandler].  The embedding is a state-and-trace monad:

    - the state is the Go heap of [HelmChart] objects (so that aliasing
      between the caller, the cache and the controller is visible) together
      with the state of the outside world;
    - every call to a collaborator is recorded as an [Event], in program
      order;
    - a run-time panic (failed type assertion, nil dereference, a panic of
      the pluggable handler) ends the computation with [Panicked], after
      the deferred calls have run.

    [klog] statements only format their arguments: nothing of them is kept
    but the dereferences their arguments make. *)

From Stdlib Require Import Ascii String.
From stdpp Require Import gmap strings list.


(** ** Go values *)

(** Addresses of heap-allocated [HelmChart] objects.  A Go pointer
    [*appsapi.HelmChart] is an [option ptr]: [None] is [nil]. *)
Definition ptr := positive.

(** The dynamic values ([interface{}]) that informers and the work queue
    hand to the controller. *)
Inductive value : Type :=
| VNil
| VString (s : string)
| VHelmChart (chart : option ptr)
| VDeletedFinalStateUnknown (Key : string) (Obj : value)
| VOther (type_name : string).

(** [metav1.StatusReason], as far as the controller tells reasons apart. *)
Inductive StatusReason : Type :=
| StatusReasonNotFound
| StatusReasonConflict
| StatusReasonOther (reason : string).

(** Go [error] values.  The [Errorf_*] constructors are the [fmt.Errorf]
    call sites of the file, one constructor per format string. *)
Inductive error : Type :=
| StatusError (reason : StatusReason) (message : string)
| ErrWaitTimeout
| NewError (message : string)
| Errorf_couldnt_get_object_from_tombstone (obj : value)
| Errorf_tombstone_contained_object_that_is_not_a_HelmChart (obj : value)
| Errorf_expected_string_in_workqueue (obj : value)
| Errorf_error_syncing (key : string) (err : error)
| Errorf_invalid_resource_key (key : string)
| Errorf_error_getting_updated_HelmChart (name : string) (err : error)
| Errorf_unexpected_key_format (key : string).

(** [errors.IsNotFound] and [errors.IsConflict] of apimachinery: the reason
    of a status error. *)
Definition IsNotFound (err : option error) : bool :=
  match err with
  | Some (StatusError StatusReasonNotFound _) => true
  | _ => false
  end.

Definition IsConflict (err : error) : bool :=
  match err with
  | StatusError StatusReasonConflict _ => true
  | _ => false
  end.

(** Checked type assertions [v, ok := obj.(T)]: the zero value and [false]
    when the dynamic type is not [T]. *)
Definition assert_HelmChart (obj : value) : option ptr * bool :=
  match obj with
  | VHelmChart chart => (chart, true)
  | _ => (None, false)
  end.

Definition assert_DeletedFinalStateUnknown (obj : value) : option (string * value) :=
  match obj with
  | VDeletedFinalStateUnknown k o => Some (k, o)
  | _ => None
  end.

Definition assert_string (obj : value) : string * bool :=
  match obj with
  | VString s => (s, true)
  | _ => ("", false)
  end.

(** Payloads of the expected type, and payloads a delete handler can
    resolve to a chart: a chart, or a tombstone that wraps one. *)
Definition is_HelmChart (obj : value) : bool := (assert_HelmChart obj).2.

Definition resolvable (obj : value) : bool :=
  is_HelmChart obj ||
  match assert_DeletedFinalStateUnknown obj with
  | Some (_, inner) => is_HelmChart inner
  | None => false
  end.

(** ** Keys (client-go, [tools/cache]) *)

(** [strings.Split(s, "/")]. *)
Fixpoint Split (s : string) : list string :=
  match s with
  | EmptyString => [EmptyString]
  | String c rest =>
      if Ascii.eqb c "/"%char then EmptyString :: Split rest
      else match Split rest with
           | [] => [String c EmptyString]
           | part :: parts => String c part :: parts
           end
  end.

(** [cache.SplitMetaNamespaceKey]: one part is a bare name, two parts are
    namespace and name, anything else is an error. *)
Definition SplitMetaNamespaceKey (key : string) : string * string * option error :=
  match Split key with
  | [name] => ("", name, None)
  | [ns; name] => (ns, name, None)
  | _ => ("", "", Some (Errorf_unexpected_key_format key))
  end.

(** Names without a slash: Kubernetes namespaces and object names are DNS
    labels and subdomains. *)
Fixpoint no_slash (s : string) : bool :=
  match s with
  | EmptyString => true
  | String c rest => negb (Ascii.eqb c "/"%char) && no_slash rest
  end.

(** The number of slashes of a key. *)
Fixpoint count_slash (s : string) : nat :=
  match s with
  | EmptyString => 0
  | String c rest => (if Ascii.eqb c "/"%char then 1 else 0) + count_slash rest
  end.

(** The key [cache.MetaNamespaceKeyFunc] builds from namespace and name. *)
Definition MetaNamespaceKey (ns name : string) : string :=
  if decide (ns = "") then name else ns +:+ "/" +:+ name.

Section Controller.

(** The resource schema ([pkg/apis/apps/v1alpha1]) is not among the sources:
    [Spec] and [Status] are arbitrary types, and [reflect.DeepEqual] on two
    [Spec]s is their structural equality. *)
Context {HelmChartSpec HelmChartStatus : Type} `{!EqDecision HelmChartSpec}.

(** Modelled from the spec: the resource type [appsapi.HelmChart], whose
    declaration is not among the sources.  "An opaque object with a Spec
    (desired state) and a Status (observed state); identity = namespace +
    name".  [ResourceVersion] stands for the rest of the metadata. *)
Record HelmChart : Type := mkHelmChart {
  Namespace : string;
  Name : string;
  ResourceVersion : string;
  Spec : HelmChartSpec;
  Status : HelmChartStatus
}.

Definition set_Status (s : HelmChartStatus) (c : HelmChart) : HelmChart :=
  mkHelmChart (Namespace c) (Name c) (ResourceVersion c) (Spec c) s.

(** The outside world (API server, informer cache contents) and the three
    interfaces through which the controller reaches it. *)
Context {Ext : Type}.

(** [helmChartLister.HelmCharts(ns).Get(name)]: a pointer to the object the
    cache owns, and an error. *)
Context (lister_Get : Ext -> string -> string -> option ptr * option error).

(** [clusternetClient.AppsV1alpha1().HelmCharts(ns).UpdateStatus(ctx, chart, opts)]:
    the conditional write; the world moves on, the returned object is
    ignored by the controller. *)
Context (client_UpdateStatus : Ext -> HelmChart -> Ext * option error).

Record Store : Type := mkStore {
  heap : gmap ptr HelmChart;
  ext : Ext
}.

(** How a Go call ends: it returns a value, or it panics. *)
Inductive outcome (A : Type) : Type :=
| Return (a : A)
| Panicked.
Global Arguments Return {A} a.
Global Arguments Panicked {A}.

(** The pluggable [SyncHandlerFunc]: it gets the chart pointer and may do
    anything to the heap and the world, but has no access to the
    controller's private work queue.  It is code the controller does not
    know: it returns an error or nil, or it panics. *)
Context (SyncHandler : option ptr -> Store -> Store * outcome (option error)).

(** Calls to the collaborators, in program order. *)
Inductive Event : Type :=
| QAdd (item : value)
| QForget (item : value)
| QAddRateLimited (item : value)
| QDone (item : value)
| QShutDown
| HandleError (err : error)
| CallSyncHandler (chart : option ptr) (result : outcome (option error))
| CallListerGet (ns name : string) (result : option ptr * option error)
| CallUpdateStatus (chart : ptr) (obj : HelmChart) (result : option error)
| HasSynced (synced : bool)
| GoWorker (i : nat)
| AwaitStop.

(** Work queue calls, and among them the terminal dispositions of an item. *)
Definition is_queue_event (e : Event) : bool :=
  match e with
  | QAdd _ | QForget _ | QAddRateLimited _ | QDone _ | QShutDown => true
  | _ => false
  end.



Definition is_GoWorker (e : Event) : bool :=
  match e with
  | GoWorker _ => true
  | _ => false
  end.

Definition is_CallSyncHandler (e : Event) : bool :=
  match e with
  | CallSyncHandler _ _ => true
  | _ => false
  end.

Definition is_QShutDown (e : Event) : bool :=
  match e with
  | QShutDown => true
  | _ => false
  end.

Definition is_HandleError (e : Event) : bool :=
  match e with
  | HandleError _ => true
  | _ => false
  end.

Definition is_CallListerGet (e : Event) : bool :=
  match e with
  | CallListerGet _ _ _ => true
  | _ => false
  end.

(** Lookups that failed, and status writes that failed. *)
Definition is_failed_lookup (e : Event) : bool :=
  match e with
  | CallListerGet _ _ (_, Some _) => true
  | _ => false
  end.

Definition is_CallUpdateStatus (e : Event) : bool :=
  match e with
  | CallUpdateStatus _ _ _ => true
  | _ => false
  end.

Definition is_failed_write (e : Event) : bool :=
  match e with
  | CallUpdateStatus _ _ (Some _) => true
  | _ => false
  end.

(** The calls the status persister makes: writes, lookups, error reports. *)
Definition is_persister_call (e : Event) : bool :=
  is_CallUpdateStatus e || is_CallListerGet e || is_HandleError e.

(** ** The monad *)

Definition M (A : Type) : Type := Store -> Store * list Event * outcome A.

Global Instance M_ret : MRet M := fun A a s => (s, [], Return a).

Global Instance M_bind : MBind M := fun A B f m s =>
  match m s with
  | (s1, t1, Return a) => let '(s2, t2, r) := f a s1 in (s2, t1 ++ t2, r)
  | (s1, t1, Panicked) => (s1, t1, Panicked)
  end.

Definition emit (e : Event) : M unit := fun s => (s, [e], Return tt).

Definition panic {A : Type} : M A := fun s => (s, [], Panicked).

(** [defer d; body]: [d] runs when [body] is left, by return or by panic. *)
Definition defer {A : Type} (d : M unit) (body : M A) : M A := fun s =>
  let '(s1, t1, r) := body s in
  let '(s2, t2, _) := d s1 in
  (s2, t1 ++ t2, r).

(** Reading through a pointer: [nil] (and an address that holds no object)
    panics. *)
Definition load (chart : option ptr) : M HelmChart := fun s =>
  match chart with
  | Some p =>
      match heap s !! p with
      | Some c => (s, [], Return c)
      | None => (s, [], Panicked)
      end
  | None => (s, [], Panicked)
  end.

(** Writing through a pointer, in place. *)
Definition store (chart : option ptr) (c : HelmChart) : M unit := fun s =>
  match chart with
  | Some p =>
      match heap s !! p with
      | Some _ => (mkStore (<[p := c]> (heap s)) (ext s), [], Return tt)
      | None => (s, [], Panicked)
      end
  | None => (s, [], Panicked)
  end.

(** Modelled from the spec: the generated [DeepCopy] method of [HelmChart]
    pointers ([zz_generated.deepcopy.go] is not among the sources).  "A
    private copy", "the fresh copy": a newly allocated object with the same
    contents; as deepcopy-gen writes it, [nil] for a [nil] receiver. *)
Definition DeepCopy (chart : option ptr) : M (option ptr) := fun s =>
  match chart with
  | None => (s, [], Return None)
  | Some p =>
      match heap s !! p with
      | Some c =>
          let q := fresh (dom (heap s)) in
          (mkStore (<[q := c]> (heap s)) (ext s), [], Return (Some q))
      | None => (s, [], Panicked)
      end
  end.

(** ** Change notification handlers *)

(** [cache.MetaNamespaceKeyFunc(chart)] for a [*HelmChart] argument: the
    accessor methods read namespace and name through the pointer. *)
Definition MetaNamespaceKeyFunc (chart : option ptr) : M (string * option error) :=
  c ← load chart;
  mret (MetaNamespaceKey (Namespace c) (Name c), None).

Definition enqueue (chart : option ptr) : M unit :=
  '(key, err) ← MetaNamespaceKeyFunc chart;
  match err with
  | Some e => emit (HandleError e)
  | None => emit (QAdd (VString key))
  end.

Definition addHelmChart (obj : value) : M unit :=
  match obj with
  | VHelmChart chart => enqueue chart
  | _ => panic
  end.

Definition updateHelmChart (old cur : value) : M unit :=
  match old with
  | VHelmChart oldChart =>
      match cur with
      | VHelmChart newChart =>
          o ← load oldChart;
          n ← load newChart;
          if decide (Spec o = Spec n) then mret tt
          else enqueue newChart
      | _ => panic
      end
  | _ => panic
  end.

Definition deleteHelmChart (obj : value) : M unit :=
  let '(chart, ok) := assert_HelmChart obj in
  if ok then enqueue chart
  else
    match assert_DeletedFinalStateUnknown obj with
    | None => emit (HandleError (Errorf_couldnt_get_object_from_tombstone obj))
    | Some (_, tombstone_Obj) =>
        let '(_, ok) := assert_HelmChart tombstone_Obj in
        if ok then enqueue chart
        else emit (HandleError (Errorf_tombstone_contained_object_that_is_not_a_HelmChart obj))
    end.

(** ** Calls to the collaborators *)

Definition helmChartLister_Get (ns name : string) : M (option ptr * option error) := fun s =>
  let r := lister_Get (ext s) ns name in
  (s, [CallListerGet ns name r], Return r).

(** [c.SyncHandler(chart)]: the call is recorded with the way it ended; a
    panic of the handler is the panic of the caller. *)
Definition call_SyncHandler (chart : option ptr) : M (option error) := fun s =>
  let '(s1, result) := SyncHandler chart s in
  (s1, [CallSyncHandler chart result], result).

(** The object behind [chart] is what gets serialized and sent. *)
Definition call_UpdateStatus (chart : option ptr) : M (option error) := fun s =>
  match chart with
  | Some p =>
      match heap s !! p with
      | Some c =>
          let '(x1, err) := client_UpdateStatus (ext s) c in
          (mkStore (heap s) x1, [CallUpdateStatus p c err], Return err)
      | None => (s, [], Panicked)
      end
  | None => (s, [], Panicked)
  end.

(** ** The reconciler *)

Definition syncHandler (key : string) : M (option error) :=
  let '(ns, name, err) := SplitMetaNamespaceKey key in
  match err with
  | Some _ =>
      emit (HandleError (Errorf_invalid_resource_key key));;
      mret None
  | None =>
      '(chart, err) ← helmChartLister_Get ns name;
      if IsNotFound err then mret None
      else
        match err with
        | Some e => mret (Some e)
        | None => call_SyncHandler chart
        end
  end.

(** [processNextWorkItem], given what [c.workqueue.Get()] returned. *)
Definition processNextWorkItem (obj : value) (shutdown : bool) : M bool :=
  if shutdown then mret false
  else
    err ← defer (emit (QDone obj))
          (let '(key, ok) := assert_string obj in
           if negb ok then
             emit (QForget obj);;
             emit (HandleError (Errorf_expected_string_in_workqueue obj));;
             mret None
           else
             err ← syncHandler key;
             match err with
             | Some e =>
                 emit (QAddRateLimited (VString key));;
                 mret (Some (Errorf_error_syncing key e))
             | None =>
                 emit (QForget obj);;
                 mret None
             end);
    match err with
    | Some e => emit (HandleError e);; mret true
    | None => mret true
    end.

(** [runWorker] over the successive answers of [Get]; when the answers run
    out the worker stays blocked in [Get]. *)
Fixpoint runWorker (gets : list (value * bool)) : M unit :=
  match gets with
  | [] => mret tt
  | (obj, shutdown) :: rest =>
      continue ← processNextWorkItem obj shutdown;
      if (continue : bool) then runWorker rest else mret tt
  end.

(** ** Retry on conflict (client-go, [util/retry] and apimachinery, [util/wait]) *)

(** [wait.Backoff]; only [Steps] decides how often the condition runs, the
    other fields time the sleeps in between. *)
Record Backoff : Type := mkBackoff { Steps : nat }.

(** [retry.DefaultRetry] of client-go:
    [wait.Backoff{Steps: 5, Duration: 10ms, Factor: 1.0, Jitter: 0.1}]. *)
Definition DefaultRetry : Backoff := mkBackoff 5.

(** [wait.ExponentialBackoff]: run [condition] until it is done or fails, at
    most [Steps] times.  [V] is the state the Go closure captures. *)
Fixpoint ExponentialBackoff {V : Type} (steps : nat)
    (condition : V -> M (V * (bool * option error))) (v : V) : M (V * option error) :=
  match steps with
  | O => mret (v, Some ErrWaitTimeout)
  | S n =>
      '(v1, (ok, err)) ← condition v;
      match err with
      | Some e => mret (v1, Some e)
      | None => if (ok : bool) then mret (v1, None) else ExponentialBackoff n condition v1
      end
  end.

(** [retry.OnError]: retriable errors are remembered and retried, the last
    one is returned when the steps run out. *)
Definition OnError_func1 {V : Type} (retriable : error -> bool)
    (fn : V -> M (V * option error))
    : V * option error -> M (V * option error * (bool * option error)) :=
  fun '(v, lastErr) =>
    '(v1, err) ← fn v;
    match err with
    | None => mret (v1, lastErr, (true, None))
    | Some e =>
        if retriable e then mret (v1, Some e, (false, None))
        else mret (v1, lastErr, (false, Some e))
    end.

(** [if err == wait.ErrWaitTimeout { err = lastErr }] *)
Definition timeout_to_last (lastErr err : option error) : option error :=
  match err with
  | Some ErrWaitTimeout => lastErr
  | _ => err
  end.

Definition OnError {V : Type} (backoff : Backoff) (retriable : error -> bool)
    (fn : V -> M (V * option error)) (v : V) : M (V * option error) :=
  '(v1, lastErr, err) ← ExponentialBackoff (Steps backoff) (OnError_func1 retriable fn) (v, None);
  mret (v1, timeout_to_last lastErr err).

Definition RetryOnConflict {V : Type} (backoff : Backoff)
    (fn : V -> M (V * option error)) (v : V) : M (V * option error) :=
  OnError backoff IsConflict fn v.

(** ** The status persister *)

(** The closure handed to [RetryOnConflict].  It captures [chart] and
    assigns to it, so [chart] is threaded through.  [status] is only read:
    [None] is a nil pointer, [Some st] a pointer to [st]. *)
Definition UpdateChartStatus_func1 (status : option HelmChartStatus) (chart : option ptr)
    : M (option ptr * option error) :=
  c ← load chart;
  match status with
  | None => panic
  | Some st =>
      store chart (set_Status st c);;
      err ← call_UpdateStatus chart;
      match err with
      | None => mret (chart, None)
      | Some e =>
          '(updated, err1) ← helmChartLister_Get (Namespace c) (Name c);
          match err1 with
          | None =>
              copy ← DeepCopy updated;
              mret (copy, Some e)
          | Some e1 =>
              emit (HandleError (Errorf_error_getting_updated_HelmChart (Name c) e1));;
              mret (chart, Some e)
          end
      end
  end.

(** The paths through the closure, for a non-nil [status]: what one attempt
    does to the store, what it calls, and what it hands to the retry loop. *)
Inductive attempt (st : HelmChartStatus)
    : option ptr -> Store -> Store * list Event * outcome (option ptr * option error) -> Prop :=
| attempt_nil s :
    attempt st None s (s, [], Panicked)
| attempt_unallocated q s :
    heap s !! q = None ->
    attempt st (Some q) s (s, [], Panicked)
| attempt_written q c s x1 :
    heap s !! q = Some c ->
    client_UpdateStatus (ext s) (set_Status st c) = (x1, None) ->
    attempt st (Some q) s
      (mkStore (<[q := set_Status st c]> (heap s)) x1,
       [CallUpdateStatus q (set_Status st c) None],
       Return (Some q, None))
| attempt_refetch_failed q c s x1 e updated e1 :
    heap s !! q = Some c ->
    client_UpdateStatus (ext s) (set_Status st c) = (x1, Some e) ->
    lister_Get x1 (Namespace c) (Name c) = (updated, Some e1) ->
    attempt st (Some q) s
      (mkStore (<[q := set_Status st c]> (heap s)) x1,
       [CallUpdateStatus q (set_Status st c) (Some e);
        CallListerGet (Namespace c) (Name c) (updated, Some e1);
        HandleError (Errorf_error_getting_updated_HelmChart (Name c) e1)],
       Return (Some q, Some e))
| attempt_refetched_nil q c s x1 e :
    heap s !! q = Some c ->
    client_UpdateStatus (ext s) (set_Status st c) = (x1, Some e) ->
    lister_Get x1 (Namespace c) (Name c) = (None, None) ->
    attempt st (Some q) s
      (mkStore (<[q := set_Status st c]> (heap s)) x1,
       [CallUpdateStatus q (set_Status st c) (Some e);
        CallListerGet (Namespace c) (Name c) (None, None)],
       Return (None, Some e))
| attempt_refetched q c s x1 e u cu :
    heap s !! q = Some c ->
    client_UpdateStatus (ext s) (set_Status st c) = (x1, Some e) ->
    lister_Get x1 (Namespace c) (Name c) = (Some u, None) ->
    <[q := set_Status st c]> (heap s) !! u = Some cu ->
    attempt st (Some q) s
      (mkStore (<[fresh (dom (<[q := set_Status st c]> (heap s))) := cu]>
                  (<[q := set_Status st c]> (heap s))) x1,
       [CallUpdateStatus q (set_Status st c) (Some e);
        CallListerGet (Namespace c) (Name c) (Some u, None)],
       Return (Some (fresh (dom (<[q := set_Status st c]> (heap s)))), Some e))
| attempt_refetched_unallocated q c s x1 e u :
    heap s !! q = Some c ->
    client_UpdateStatus (ext s) (set_Status st c) = (x1, Some e) ->
    lister_Get x1 (Namespace c) (Name c) = (Some u, None) ->
    <[q := set_Status st c]> (heap s) !! u = None ->
    attempt st (Some q) s
      (mkStore (<[q := set_Status st c]> (heap s)) x1,
       [CallUpdateStatus q (set_Status st c) (Some e);
        CallListerGet (Namespace c) (Name c) (Some u, None)],
       Panicked).

Definition UpdateChartStatus (chart : option ptr) (status : option HelmChartStatus)
    : M (option error) :=
  _ ← load chart;
  '(_, err) ← RetryOnConflict DefaultRetry (UpdateChartStatus_func1 status) chart;
  mret err.

(** The status writes of a trace: pointer, object sent, answer. *)
Definition write_of (e : Event) : option (ptr * HelmChart * option error) :=
  match e with
  | CallUpdateStatus q c r => Some (q, c, r)
  | _ => None
  end.

Definition writes (t : list Event) : list (ptr * HelmChart * option error) :=
  omap write_of t.

Definition conflicted (w : ptr * HelmChart * option error) : Prop :=
  match w.2 with
  | Some e => IsConflict e = true
  | None => False
  end.

(** What a retry sends after the lister has answered [updated]: the object
    behind [updated], as the heap [h0] holds it, with the new status. *)
Definition refetched_object (st : HelmChartStatus) (h0 : gmap ptr HelmChart)
    (updated : option ptr) : option HelmChart :=
  match updated with
  | Some u =>
      match h0 !! u with
      | Some cu => Some (set_Status st cu)
      | None => None
      end
  | None => None
  end.

(** [h] holds the objects of [h0], up to their status, which may have become
    [st]: what the heap of a call that started in [h0] looks like. *)
Definition status_written (st : HelmChartStatus) (h0 h : gmap ptr HelmChart) : Prop :=
  forall a ca, h0 !! a = Some ca ->
    exists ca', h !! a = Some ca' /\ set_Status st ca' = set_Status st ca.

(** The retry protocol, as a grammar of traces.
    [retry_trace st h0 chart expected t]: [t] is a sequence of attempts, the
    first one writing through [chart] and sending [expected], when
    [expected] is given; [h0] is the heap at the start of the call, [st]
    the new status.

    - every write sends an object whose status is [st];
    - a write that succeeds ends the sequence;
    - a write that fails is followed by a lookup of the object's namespace
      and name in the lister;
    - after a lookup that succeeds, the next attempt writes through a
      pointer that was not allocated in [h0], a copy of its own, and what it
      sends is the object the lister returned, as [h0] holds it, with the
      new status ([refetched_object]);
    - a lookup that fails is reported to [HandleError], and the next attempt
      writes through the same pointer and sends the same object again;
    - another attempt follows only a write that failed with a conflict. *)
Inductive retry_trace (st : HelmChartStatus) (h0 : gmap ptr HelmChart)
    : option ptr -> option HelmChart -> list Event -> Prop :=
| retry_end chart expected :
    retry_trace st h0 chart expected []
| retry_success q c expected :
    Status c = st ->
    (forall c', expected = Some c' -> c = c') ->
    retry_trace st h0 (Some q) expected [CallUpdateStatus q c None]
| retry_refetched q c expected e updated copy rest :
    Status c = st ->
    (forall c', expected = Some c' -> c = c') ->
    (forall q', copy = Some q' -> h0 !! q' = None) ->
    (rest = [] \/ IsConflict e = true) ->
    retry_trace st h0 copy (refetched_object st h0 updated) rest ->
    retry_trace st h0 (Some q) expected
      (CallUpdateStatus q c (Some e)
       :: CallListerGet (Namespace c) (Name c) (updated, None)
       :: rest)
| retry_refetch_failed q c expected e updated e1 rest :
    Status c = st ->
    (forall c', expected = Some c' -> c = c') ->
    (rest = [] \/ IsConflict e = true) ->
    retry_trace st h0 (Some q) (Some c) rest ->
    retry_trace st h0 (Some q) expected
      (CallUpdateStatus q c (Some e)
       :: CallListerGet (Namespace c) (Name c) (updated, Some e1)
       :: HandleError (Errorf_error_getting_updated_HelmChart (Name c) e1)
       :: rest).

(** ** Startup *)

(** [cache.WaitForCacheSync(stopCh, c.helmChartSynced)]: [polls] are the
    answers [helmChartSynced] gives until [stopCh] is closed; the wait ends
    with the first [true]. *)
Fixpoint WaitForCacheSync (polls : list bool) : M bool :=
  match polls with
  | [] => mret false
  | synced :: rest =>
      emit (HasSynced synced);;
      if synced then mret true else WaitForCacheSync rest
  end.

(** [for i := 0; i < workers; i++ { go wait.Until(c.runWorker, ...) }] *)
Fixpoint launch_workers (i n : nat) : M unit :=
  match n with
  | O => mret tt
  | S m => emit (GoWorker i);; launch_workers (S i) m
  end.

(** [Run]; nothing in it panics, so the deferred [HandleCrash] has nothing
    to do. *)
Definition Run (workers : Z) (polls : list bool) : M unit :=
  defer (emit QShutDown)
    (synced ← WaitForCacheSync polls;
     if negb synced then mret tt
     else
       launch_workers 0 (Z.to_nat workers);;
       emit AwaitStop).

End Controller.

(** ** Construction and notification delivery *)

Section Construction.

Context {HelmChartSpec HelmChartStatus Ext : Type}.

(** [cache.ResourceEventHandlerFuncs] of client-go: a notification whose
    func is nil is ignored. *)
Record ResourceEventHandlerFuncs : Type := mkResourceEventHandlerFuncs {
  AddFunc : option (value -> @M HelmChartSpec HelmChartStatus Ext unit);
  UpdateFunc : option (value -> value -> @M HelmChartSpec HelmChartStatus Ext unit);
  DeleteFunc : option (value -> @M HelmChartSpec HelmChartStatus Ext unit)
}.

(** What an informer delivers: [OnAdd(obj)], [OnUpdate(oldObj, newObj)],
    [OnDelete(obj)]. *)
Inductive Notification : Type :=
| OnAdd (obj : value)
| OnUpdate (oldObj newObj : value)
| OnDelete (obj : value).

Definition deliver (r : ResourceEventHandlerFuncs) (n : Notification)
    : @M HelmChartSpec HelmChartStatus Ext unit :=
  match n with
  | OnAdd obj =>
      match AddFunc r with
      | Some f => f obj
      | None => mret tt
      end
  | OnUpdate oldObj newObj =>
      match UpdateFunc r with
      | Some f => f oldObj newObj
      | None => mret tt
      end
  | OnDelete obj =>
      match DeleteFunc r with
      | Some f => f obj
      | None => mret tt
      end
  end.

(** The fields of [Controller] that the embedding keeps as values; the work
    queue is the [Q*] events, [ctx] plays no part. *)
Record Controller : Type := mkController {
  clusternetClient : Ext -> @HelmChart HelmChartSpec HelmChartStatus -> Ext * option error;
  helmChartLister : Ext -> string -> string -> option ptr * option error;
  Controller_SyncHandler :
    option ptr -> @Store HelmChartSpec HelmChartStatus Ext
    -> @Store HelmChartSpec HelmChartStatus Ext * outcome (option error)
}.

(** [NewController]: the controller and the error it returns, and the
    handlers it has added to the informer.  [syncHandler] is a Go func
    value: [None] is nil. *)
Definition NewController
    (client : Ext -> @HelmChart HelmChartSpec HelmChartStatus -> Ext * option error)
    (lister : Ext -> string -> string -> option ptr * option error)
    (syncHandler : option (option ptr -> @Store HelmChartSpec HelmChartStatus Ext
                           -> @Store HelmChartSpec HelmChartStatus Ext
                              * outcome (option error)))
    `{!EqDecision HelmChartSpec}
    : option Controller * option error * list ResourceEventHandlerFuncs :=
  match syncHandler with
  | None => (None, Some (NewError "syncHandler must be set"), [])
  | Some handler =>
      (Some (mkController client lister handler), None,
       [mkResourceEventHandlerFuncs
          (Some addHelmChart) (Some updateHelmChart) (Some deleteHelmChart)])
  end.


Definition Controller_UpdateChartStatus (c : Controller)
    (chart : option ptr) (status : option HelmChartStatus)
    : @M HelmChartSpec HelmChartStatus Ext (option error) :=
  UpdateChartStatus (helmChartLister c) (clusternetClient c) chart status.

End Construction.

(** ** Reading a run *)

Definition store_of {S E R : Type} (run : S * list E * R) : S := run.1.1.
Definition trace_of {S E R : Type} (run : S * list E * R) : list E := run.1.2.
Definition outcome_of {S E R : Type} (run : S * list E * R) : R := run.2.

(** ** A concrete world

    One chart, [ns1/foo], sits in the informer cache at address 1.  The API
    server answers status writes from a script, one answer per write, and
    accepts every write once the script is used up. *)

Module Scenario.

Definition foo : @HelmChart string string :=
  mkHelmChart "ns1" "foo" "7" "chart-1.0" "Pending".

Definition foo' : @HelmChart string string :=
  mkHelmChart "ns1" "foo" "8" "chart-1.0" "Ready".

Definition foo2 : @HelmChart string string :=
  mkHelmChart "ns1" "foo" "9" "chart-2.0" "Ready".

Definition script : Type := list (option error).

Definition lister_Get (x : script) (ns name : string) : option ptr * option error :=
  if decide (ns = "ns1" ∧ name = "foo") then (Some 1%positive, None)
  else if decide (name = "broken") then (None, Some (NewError "cache failure"))
  else (None, Some (StatusError StatusReasonNotFound "not found")).

Definition lister_down (x : script) (ns name : string) : option ptr * option error :=
  (None, Some (StatusError StatusReasonNotFound "not found")).

Definition client_UpdateStatus (x : script) (c : @HelmChart string string)
    : script * option error :=
  match x with
  | [] => ([], None)
  | answer :: rest => (rest, answer)
  end.

Definition store0 (x : script) : @Store string string script :=
  mkStore (<[3%positive := foo2]> (<[2%positive := foo']> (<[1%positive := foo]> ∅))) x.

Definition conflict : option error :=
  Some (StatusError StatusReasonConflict "the object has been modified").

Definition always_conflict : script :=
  [conflict; conflict; conflict; conflict; conflict; conflict; conflict].

Definition foo_ready : @HelmChart string string :=
  mkHelmChart "ns1" "foo" "7" "chart-1.0" "Ready".

Definition handler_ok (chart : option ptr) (s : @Store string string script)
    : @Store string string script * outcome (option error) := (s, Return None).


Definition handler_panicking (chart : option ptr) (s : @Store string string script)
    : @Store string string script * outcome (option error) := (s, Panicked).

End Scenario.

(** * Properties *)

Section Properties.

Context {HelmChartSpec HelmChartStatus : Type} `{!EqDecision HelmChartSpec}.
Context {Ext : Type}.
Context (lister_Get : Ext -> string -> string -> option ptr * option error).
Context (client_UpdateStatus : Ext -> @HelmChart HelmChartSpec HelmChartStatus -> Ext * option error).
Context (SyncHandler : option ptr -> @Store HelmChartSpec HelmChartStatus Ext
                       -> @Store HelmChartSpec HelmChartStatus Ext
                          * outcome (option error)).

Implicit Types (s : @Store HelmChartSpec HelmChartStatus Ext).
Implicit Types (c cu old new : @HelmChart HelmChartSpec HelmChartStatus).
Implicit Types (p q : ptr) (chart : option ptr) (obj : value) (key : string).
Implicit Types (st : HelmChartStatus).

(** Reading the parts of a run that is given as a triple. *)
Local Ltac project_run :=
  repeat match goal with
         | |- context [store_of (?s, ?t, ?r)] => change (store_of (s, t, r)) with s
         | |- context [trace_of (?s, ?t, ?r)] => change (trace_of (s, t, r)) with t
         | |- context [outcome_of (?s, ?t, ?r)] => change (outcome_of (s, t, r)) with r
         end.

(** ** Change notification adapter *)

Lemma enqueue_live s p c :
  heap s !! p = Some c ->
  enqueue (Some p) s = (s, [QAdd (VString (MetaNamespaceKey (Namespace c) (Name c)))], Return tt).
Proof.
  intros Hp. unfold enqueue, MetaNamespaceKeyFunc, load, mbind, M_bind, mret, M_ret, emit.
  rewrite Hp. reflexivity.
Qed.

Lemma enqueue_nil s : enqueue None s = (s, [], Panicked).
Proof. reflexivity. Qed.

(** ** Keys *)

Lemma Split_no_slash (name : string) : no_slash name = true -> Split name = [name].
Proof.
  induction name as [|c rest IH]; [done|]. cbn [no_slash Split].
  intros [Hc Hrest]%andb_prop. apply negb_true_iff in Hc. rewrite Hc.
  by rewrite (IH Hrest).
Qed.

Lemma Split_namespace_name (ns name : string) :
  no_slash ns = true -> Split (ns +:+ "/" +:+ name) = ns :: Split name.
Proof.
  induction ns as [|c rest IH]; [done|]. cbn [no_slash].
  intros [Hc Hrest]%andb_prop. apply negb_true_iff in Hc.
  change (String c rest +:+ "/" +:+ name) with (String c (rest +:+ "/" +:+ name)).
  cbn [Split]. by rewrite Hc, (IH Hrest).
Qed.

(** The key the adapter enqueues for a namespace and a name is split by the
    reconciler into that namespace and that name: keys made by [enqueue]
    are never malformed. *)
Theorem enqueued_key_splits (ns name : string) :
  no_slash ns = true -> no_slash name = true ->
  SplitMetaNamespaceKey (MetaNamespaceKey ns name) = (ns, name, None).
Proof.
  intros Hns Hname. unfold SplitMetaNamespaceKey, MetaNamespaceKey.
  case_decide as Hempty.
  - subst ns. by rewrite (Split_no_slash name Hname).
  - by rewrite (Split_namespace_name ns name Hns), (Split_no_slash name Hname).
Qed.

(** ** Change notification adapter, continued *)

(** An add or a delete notification that carries a chart enqueues the key
    of that chart, and does nothing else. *)
Theorem live_notification_enqueues_key s p c :
  heap s !! p = Some c ->
  addHelmChart (VHelmChart (Some p)) s
  = (s, [QAdd (VString (MetaNamespaceKey (Namespace c) (Name c)))], Return tt)
  /\ deleteHelmChart (VHelmChart (Some p)) s
     = (s, [QAdd (VString (MetaNamespaceKey (Namespace c) (Name c)))], Return tt).
Proof.
  intros Hp. split.
  - unfold addHelmChart. by apply enqueue_live.
  - unfold deleteHelmChart. simpl. by apply enqueue_live.
Qed.

(** C2: a delete notification whose payload is a tombstone wrapping a
    HelmChart enqueues nothing: the second type assertion discards the
    wrapped chart, [chart] is still nil when it reaches [enqueue], and
    reading the key through it panics.  The key of the deleted resource
    never reaches the work queue. *)
Theorem deleteHelmChart_tombstone_enqueues_nothing s key chart :
  deleteHelmChart (VDeletedFinalStateUnknown key (VHelmChart chart)) s = (s, [], Panicked).
Proof. reflexivity. Qed.

(** Whatever the tombstone wraps, the handler never reads it. *)
Lemma deleteHelmChart_tombstone_ignores_chart s key chart1 chart2 :
  deleteHelmChart (VDeletedFinalStateUnknown key (VHelmChart chart1)) s
  = deleteHelmChart (VDeletedFinalStateUnknown key (VHelmChart chart2)) s.
Proof. reflexivity. Qed.

Lemma resolvable_false_not_chart obj : resolvable obj = false -> is_HelmChart obj = false.
Proof. unfold resolvable. by intros [? _]%orb_false_iff. Qed.

(** C3 (amended): a delete notification whose payload is neither a
    HelmChart nor a tombstone wrapping one is reported to the error handler
    and dropped: one [HandleError], nothing enqueued, normal return.  The
    add and update handlers assert the payload type unchecked: on every
    payload that is not itself a HelmChart, a tombstone wrapping a
    HelmChart among them, they panic, with nothing enqueued and nothing
    reported. *)
Theorem malformed_notification s obj other chart :
  (resolvable obj = false ->
   deleteHelmChart obj s
   = (s,
      [HandleError
         match assert_DeletedFinalStateUnknown obj with
         | None => Errorf_couldnt_get_object_from_tombstone obj
         | Some _ => Errorf_tombstone_contained_object_that_is_not_a_HelmChart obj
         end],
      Return tt))
  /\ (is_HelmChart obj = false ->
      addHelmChart obj s = (s, [], Panicked)
      /\ updateHelmChart obj other s = (s, [], Panicked)
      /\ updateHelmChart (VHelmChart chart) obj s = (s, [], Panicked)).
Proof.
  split.
  - intros Hres. pose proof (resolvable_false_not_chart _ Hres) as Hnc.
    destruct obj as [| |?|k inner|]; try discriminate Hnc; try reflexivity.
    destruct inner; try discriminate Hres; reflexivity.
  - intros Hnc. destruct obj; try discriminate Hnc; repeat split; reflexivity.
Qed.

(** C4: an update whose old and new Spec are equal enqueues nothing,
    whatever the other fields of the two objects are; an update whose Specs
    differ enqueues the key of the new object. *)
Theorem updateHelmChart_spec_filter s p q old new :
  heap s !! p = Some old ->
  heap s !! q = Some new ->
  (Spec old = Spec new ->
   updateHelmChart (VHelmChart (Some p)) (VHelmChart (Some q)) s = (s, [], Return tt))
  /\ (Spec old <> Spec new ->
      updateHelmChart (VHelmChart (Some p)) (VHelmChart (Some q)) s
      = (s, [QAdd (VString (MetaNamespaceKey (Namespace new) (Name new)))], Return tt)).
Proof.
  intros Hp Hq.
  assert (Hrun : updateHelmChart (VHelmChart (Some p)) (VHelmChart (Some q)) s
                 = if decide (Spec old = Spec new) then (s, [], Return tt)
                   else enqueue (Some q) s).
  { unfold updateHelmChart, load, mbind, M_bind, mret, M_ret.
    rewrite Hp, Hq. destruct (decide (Spec old = Spec new)); [reflexivity|].
    destruct (enqueue (Some q) s) as [[s2 t2] r]. reflexivity. }
  rewrite Hrun. split; intros Hspec.
  - by rewrite decide_True.
  - rewrite decide_False by done. by apply enqueue_live.
Qed.

(** ** Reconciler *)

(** The run of [syncHandler], path by path. *)
Lemma syncHandler_unfold s key :
  syncHandler lister_Get SyncHandler key s =
  match SplitMetaNamespaceKey key with
  | (_, _, Some _) => (s, [HandleError (Errorf_invalid_resource_key key)], Return None)
  | (ns, name, None) =>
      let r := lister_Get (ext s) ns name in
      if IsNotFound r.2 then (s, [CallListerGet ns name r], Return None)
      else
        match r.2 with
        | Some e => (s, [CallListerGet ns name r], Return (Some e))
        | None =>
            ((SyncHandler r.1 s).1,
             [CallListerGet ns name r; CallSyncHandler r.1 (SyncHandler r.1 s).2],
             (SyncHandler r.1 s).2)
        end
  end.
Proof.
  unfold syncHandler. destruct (SplitMetaNamespaceKey key) as [[ns name] [e|]]; [reflexivity|].
  unfold helmChartLister_Get, call_SyncHandler, mbind, M_bind, mret, M_ret. simpl.
  destruct (lister_Get (ext s) ns name) as [chart err]. simpl.
  destruct (IsNotFound err); [reflexivity|].
  destruct err as [e|]; [reflexivity|].
  destruct (SyncHandler chart s) as [s1 [err1|]]; reflexivity.
Qed.

(** [syncHandler] panics only when the pluggable handler does. *)
Lemma syncHandler_panics s key :
  outcome_of (syncHandler lister_Get SyncHandler key s) = Panicked ->
  exists ns name chart,
    SplitMetaNamespaceKey key = (ns, name, None)
    /\ lister_Get (ext s) ns name = (chart, None)
    /\ (SyncHandler chart s).2 = Panicked.
Proof.
  rewrite syncHandler_unfold.
  destruct (SplitMetaNamespaceKey key) as [[ns name] [e|]]; [discriminate|]. cbv zeta.
  destruct (lister_Get (ext s) ns name) as [chart err] eqn:Hget. cbn [fst snd].
  destruct (IsNotFound err); [discriminate|].
  destruct err as [e|]; [discriminate|]. unfold outcome_of. cbn [fst snd].
  intros Hout. by exists ns, name, chart.
Qed.


(** The run of [processNextWorkItem] on a string item, given the run of
    [syncHandler] on it: when the sync returns, *)
Lemma processNextWorkItem_string s key s1 t1 err :
  syncHandler lister_Get SyncHandler key s = (s1, t1, Return err) ->
  processNextWorkItem lister_Get SyncHandler (VString key) false s =
  (s1,
   t1 ++ match err with
         | None => [QForget (VString key); QDone (VString key)]
         | Some e => [QAddRateLimited (VString key); QDone (VString key);
                      HandleError (Errorf_error_syncing key e)]
         end,
   Return true).
Proof.
  intros Hsync.
  unfold processNextWorkItem, defer, mbind, M_bind, mret, M_ret, emit. simpl.
  rewrite Hsync. destruct err as [e|]; simpl.
  - by rewrite <- !app_assoc.
  - by rewrite app_nil_r, <- !app_assoc.
Qed.








(** C7: a key that [SplitMetaNamespaceKey] rejects is reported and dropped:
    [syncHandler] returns nil without looking the key up or calling the
    handler, and the item is forgotten, not requeued. *)
Theorem malformed_key_dropped s key err :
  (SplitMetaNamespaceKey key).2 = Some err ->
  syncHandler lister_Get SyncHandler key s
  = (s, [HandleError (Errorf_invalid_resource_key key)], Return None)
  /\ processNextWorkItem lister_Get SyncHandler (VString key) false s
     = (s, [HandleError (Errorf_invalid_resource_key key);
            QForget (VString key); QDone (VString key)], Return true).
Proof.
  intros Hsplit.
  assert (Hsync : syncHandler lister_Get SyncHandler key s
                  = (s, [HandleError (Errorf_invalid_resource_key key)], Return None)).
  { rewrite syncHandler_unfold.
    destruct (SplitMetaNamespaceKey key) as [[ns name] [e|]]; [done|discriminate]. }
  split; [done|]. by rewrite (processNextWorkItem_string _ _ _ _ _ Hsync).
Qed.

(** C8: when the lister reports not-found the sync ends with success: the
    handler is not called and the item is forgotten.  Any other lookup
    error is returned, so the key is requeued with [AddRateLimited], again
    without calling the handler. *)
Theorem lookup_failure s key ns name chart err :
  SplitMetaNamespaceKey key = (ns, name, None) ->
  lister_Get (ext s) ns name = (chart, Some err) ->
  (IsNotFound (Some err) = true ->
   syncHandler lister_Get SyncHandler key s
   = (s, [CallListerGet ns name (chart, Some err)], Return None)
   /\ processNextWorkItem lister_Get SyncHandler (VString key) false s
      = (s, [CallListerGet ns name (chart, Some err);
             QForget (VString key); QDone (VString key)], Return true))
  /\ (IsNotFound (Some err) = false ->
      syncHandler lister_Get SyncHandler key s
      = (s, [CallListerGet ns name (chart, Some err)], Return (Some err))
      /\ processNextWorkItem lister_Get SyncHandler (VString key) false s
         = (s, [CallListerGet ns name (chart, Some err);
                QAddRateLimited (VString key); QDone (VString key);
                HandleError (Errorf_error_syncing key err)], Return true)).
Proof.
  intros Hsplit Hget.
  pose proof (syncHandler_unfold s key) as Hsync.
  rewrite Hsplit in Hsync. cbv zeta in Hsync. rewrite Hget in Hsync.
  cbn [fst snd] in Hsync.
  split; intros Hnf; rewrite Hnf in Hsync; (split; [done|]);
    by rewrite (processNextWorkItem_string _ _ _ _ _ Hsync).
Qed.





(** ** Startup *)

Lemma WaitForCacheSync_run polls s :
  exists t,
    WaitForCacheSync polls s = (s, t, Return (existsb id polls))
    /\ List.filter is_GoWorker t = []
    /\ (existsb id polls = true -> In (HasSynced true) t).
Proof.
  induction polls as [|synced rest IH].
  - exists []. by repeat split.
  - destruct IH as (t & Hrun & Hnw & Hsynced).
    cbn [WaitForCacheSync]. unfold mbind, M_bind, emit. destruct synced.
    + exists [HasSynced true]. repeat split; simpl; auto.
    + exists (HasSynced false :: t). rewrite Hrun. repeat split; simpl; auto.
Qed.

Lemma launch_workers_run i n s :
  launch_workers i n s = (s, map GoWorker (seq i n), Return tt).
Proof.
  revert i. induction n as [|n IH]; intros i; [reflexivity|].
  cbn [launch_workers]. unfold mbind, M_bind, emit. by rewrite IH.
Qed.

Lemma filter_GoWorker_launched i n :
  List.filter (@is_GoWorker HelmChartSpec HelmChartStatus) (map GoWorker (seq i n))
  = map GoWorker (seq i n).
Proof. revert i. induction n as [|n IH]; intros i; simpl; [done|]. by rewrite IH. Qed.

(** The trace of [Run]: the wait, then the workers and the wait for the stop
    signal if the caches synced, then the deferred shutdown of the queue. *)
Lemma Run_unfold workers polls s t synced :
  WaitForCacheSync polls s = (s, t, Return synced) ->
  Run workers polls s =
  (s,
   t ++ (if synced then map GoWorker (seq 0 (Z.to_nat workers)) ++ [AwaitStop] else [])
     ++ [QShutDown],
   Return tt).
Proof.
  intros Hwait. unfold Run, defer. unfold mbind at 1. unfold M_bind at 1.
  rewrite Hwait. destruct synced; simpl.
  - unfold mbind, M_bind, emit. rewrite launch_workers_run. simpl.
    by rewrite <- !app_assoc.
  - by rewrite app_nil_r.
Qed.

Lemma worker_after_prefix (t rest pre post : list (@Event HelmChartSpec HelmChartStatus)) i :
  List.filter is_GoWorker t = [] ->
  t ++ rest = pre ++ GoWorker i :: post ->
  exists l, pre = t ++ l.
Proof.
  revert pre. induction t as [|e t IH]; intros pre Hnw Heq.
  - by exists pre.
  - destruct pre as [|e' pre].
    + simpl in Heq. injection Heq as -> _. discriminate Hnw.
    + simpl in Heq. injection Heq as -> Heq.
      assert (Hnw' : List.filter is_GoWorker t = []).
      { simpl in Hnw. by destruct (is_GoWorker e'). }
      destruct (IH pre Hnw' Heq) as [l ->]. by exists l.
Qed.

(** C10: [Run] returns; every worker it starts is started after
    [helmChartSynced] has answered true; when the wait for the caches fails
    no worker is started at all, and when it succeeds the workers asked for
    are started. *)
Theorem Run_cold_start_barrier s workers polls :
  outcome_of (Run workers polls s) = Return tt
  /\ (forall pre i post,
        trace_of (Run workers polls s) = pre ++ GoWorker i :: post ->
        In (HasSynced true) pre)
  /\ (outcome_of (WaitForCacheSync polls s) = Return false ->
      List.filter is_GoWorker (trace_of (Run workers polls s)) = [])
  /\ (outcome_of (WaitForCacheSync polls s) = Return true ->
      List.filter is_GoWorker (trace_of (Run workers polls s))
      = map GoWorker (seq 0 (Z.to_nat workers))).
Proof.
  destruct (WaitForCacheSync_run polls s) as (t & Hwait & Hnw & Hsynced).
  rewrite (Run_unfold workers _ _ _ _ Hwait), Hwait. unfold outcome_of, trace_of. simpl.
  split; [done|]. split; [|split].
  - intros pre i post Heq. destruct (existsb id polls).
    + destruct (worker_after_prefix _ _ _ _ _ Hnw Heq) as [l ->].
      apply in_or_app. left. by apply Hsynced.
    + simpl in Heq.
      assert (Hin : In (GoWorker i) (t ++ [QShutDown])).
      { rewrite Heq. apply in_or_app. right. by left. }
      apply in_app_or in Hin as [Hin|[Hin|[]]]; [|discriminate].
      assert (Hf : In (GoWorker i) (List.filter is_GoWorker t)).
      { apply filter_In. by split. }
      rewrite Hnw in Hf. destruct Hf.
  - intros [= Hfalse]. rewrite Hfalse. cbv iota.
    by rewrite !List.filter_app, Hnw.
  - intros [= Htrue]. rewrite Htrue. cbv iota.
    rewrite !List.filter_app, Hnw, filter_GoWorker_launched. simpl. by rewrite !app_nil_r.
Qed.

(** ** Status persister *)

(** One run of the closure on an allocated chart, path by path. *)
Lemma UpdateChartStatus_func1_run st q c s :
  heap s !! q = Some c ->
  UpdateChartStatus_func1 lister_Get client_UpdateStatus (Some st) (Some q) s =
  let c' := set_Status st c in
  let h1 := <[q := c']> (heap s) in
  let x1 := (client_UpdateStatus (ext s) c').1 in
  match (client_UpdateStatus (ext s) c').2 with
  | None => (mkStore h1 x1, [CallUpdateStatus q c' None], Return (Some q, None))
  | Some e =>
      let r := lister_Get x1 (Namespace c) (Name c) in
      match r.2 with
      | Some e1 =>
          (mkStore h1 x1,
           [CallUpdateStatus q c' (Some e); CallListerGet (Namespace c) (Name c) r;
            HandleError (Errorf_error_getting_updated_HelmChart (Name c) e1)],
           Return (Some q, Some e))
      | None =>
          match r.1 with
          | None =>
              (mkStore h1 x1,
               [CallUpdateStatus q c' (Some e); CallListerGet (Namespace c) (Name c) r],
               Return (None, Some e))
          | Some u =>
              match h1 !! u with
              | Some cu =>
                  (mkStore (<[fresh (dom h1) := cu]> h1) x1,
                   [CallUpdateStatus q c' (Some e); CallListerGet (Namespace c) (Name c) r],
                   Return (Some (fresh (dom h1)), Some e))
              | None =>
                  (mkStore h1 x1,
                   [CallUpdateStatus q c' (Some e); CallListerGet (Namespace c) (Name c) r],
                   Panicked)
              end
          end
      end
  end.
Proof.
  intros Hq.
  unfold UpdateChartStatus_func1, load, store, call_UpdateStatus, helmChartLister_Get,
    DeepCopy, emit, mbind, M_bind, mret, M_ret.
  rewrite Hq. cbn [heap ext]. rewrite Hq. cbn [heap ext]. rewrite lookup_insert_eq.
  destruct (client_UpdateStatus (ext s) (set_Status st c)) as [x1 [e|]]; cbn [fst snd heap ext];
    [|reflexivity].
  destruct (lister_Get x1 (Namespace c) (Name c)) as [[u|] [e1|]]; cbn [fst snd heap ext];
    try reflexivity.
  destruct (<[q:=set_Status st c]> (heap s) !! u); reflexivity.
Qed.

Lemma UpdateChartStatus_func1_unallocated st q s :
  heap s !! q = None ->
  UpdateChartStatus_func1 lister_Get client_UpdateStatus (Some st) (Some q) s
  = (s, [], Panicked).
Proof.
  intros Hq. unfold UpdateChartStatus_func1, load, mbind, M_bind. by rewrite Hq.
Qed.

Lemma UpdateChartStatus_func1_nil status s :
  UpdateChartStatus_func1 lister_Get client_UpdateStatus status None s = (s, [], Panicked).
Proof. reflexivity. Qed.

Lemma OnError_func1_run {V : Type} retriable
    (fn : V -> @M HelmChartSpec HelmChartStatus Ext (V * option error)) v lastErr s :
  OnError_func1 retriable fn (v, lastErr) s =
  match fn v s with
  | (s1, t1, Panicked) => (s1, t1, Panicked)
  | (s1, t1, Return (v1, None)) => (s1, t1, Return (v1, lastErr, (true, None)))
  | (s1, t1, Return (v1, Some e)) =>
      if retriable e then (s1, t1, Return (v1, Some e, (false, None)))
      else (s1, t1, Return (v1, lastErr, (false, Some e)))
  end.
Proof.
  unfold OnError_func1, mbind, M_bind, mret, M_ret.
  destruct (fn v s) as [[s1 t1] [[v1 [e|]]|]]; [|by rewrite app_nil_r|reflexivity].
  destruct (retriable e); by rewrite app_nil_r.
Qed.

(** One turn of the retry loop. *)
Lemma ExponentialBackoff_step {V : Type} n retriable
    (fn : V -> @M HelmChartSpec HelmChartStatus Ext (V * option error)) v lastErr s :
  ExponentialBackoff (S n) (OnError_func1 retriable fn) (v, lastErr) s =
  match fn v s with
  | (s1, t1, Panicked) => (s1, t1, Panicked)
  | (s1, t1, Return (v1, None)) => (s1, t1, Return (v1, lastErr, None))
  | (s1, t1, Return (v1, Some e)) =>
      if retriable e then
        let '(s2, t2, r) :=
          ExponentialBackoff n (OnError_func1 retriable fn) (v1, Some e) s1 in
        (s2, t1 ++ t2, r)
      else (s1, t1, Return (v1, lastErr, Some e))
  end.
Proof.
  cbn [ExponentialBackoff]. unfold mbind, M_bind, mret, M_ret.
  rewrite OnError_func1_run.
  destruct (fn v s) as [[s1 t1] [[v1 [e|]]|]]; [|by rewrite app_nil_r|reflexivity].
  destruct (retriable e); by rewrite ?app_nil_r.
Qed.

Lemma ExponentialBackoff_zero {V : Type} retriable
    (fn : V -> @M HelmChartSpec HelmChartStatus Ext (V * option error)) v lastErr s :
  ExponentialBackoff 0 (OnError_func1 retriable fn) (v, lastErr) s
  = (s, [], Return (v, lastErr, Some ErrWaitTimeout)).
Proof. reflexivity. Qed.

(** The closure runs along one of the paths of [attempt]. *)
Lemma UpdateChartStatus_func1_attempt st chart s :
  attempt lister_Get client_UpdateStatus st chart s
    (UpdateChartStatus_func1 lister_Get client_UpdateStatus (Some st) chart s).
Proof.
  destruct chart as [q|]; [|apply attempt_nil].
  destruct (heap s !! q) as [c|] eqn:Hq.
  - rewrite (UpdateChartStatus_func1_run st q c s Hq). cbv zeta.
    destruct (client_UpdateStatus (ext s) (set_Status st c)) as [x1 [e|]] eqn:Hw;
      cbn [fst snd]; [|by apply attempt_written].
    destruct (lister_Get x1 (Namespace c) (Name c)) as [updated [e1|]] eqn:Hget;
      cbn [fst snd]; [by eapply attempt_refetch_failed|].
    destruct updated as [u|]; [|by apply attempt_refetched_nil].
    destruct (<[q:=set_Status st c]> (heap s) !! u) as [cu|] eqn:Hu.
    + by apply attempt_refetched.
    + by apply attempt_refetched_unallocated.
  - rewrite (UpdateChartStatus_func1_unallocated st q s Hq). by apply attempt_unallocated.
Qed.

Lemma writes_app (t1 t2 : list (@Event HelmChartSpec HelmChartStatus)) :
  writes (t1 ++ t2) = writes t1 ++ writes t2.
Proof. apply omap_app. Qed.

(** The loop of [RetryOnConflict] around the closure. *)
Local Abbreviation retry_loop n st chart lastErr s :=
  (ExponentialBackoff n
     (OnError_func1 IsConflict
        (UpdateChartStatus_func1 lister_Get client_UpdateStatus (Some st)))
     (chart, lastErr) s).

(** Case analysis on the first attempt of a loop with steps left. *)
Local Ltac first_attempt st chart s :=
  rewrite ExponentialBackoff_step;
  let R := fresh "R" in
  let HR := fresh "HR" in
  let Ha := fresh "Ha" in
  pose proof (UpdateChartStatus_func1_attempt st chart s) as Ha;
  remember (UpdateChartStatus_func1 lister_Get client_UpdateStatus (Some st) chart s)
    as R eqn:HR;
  clear HR; destruct Ha; cbv beta iota.

(** Case analysis on whether the failed write is retried; in the branch
    that retries, the induction hypothesis is applied to the rest of the
    loop and the rest of the loop is named. *)
Local Ltac retried IH :=
  match goal with
  | |- context [IsConflict ?e] =>
      let Hc := fresh "Hconflict" in
      destruct (IsConflict e) eqn:Hc;
      [ match goal with
        | |- context [ExponentialBackoff ?n ?cond ?vl ?s1] =>
            let Hrest := fresh "Hrest" in
            pose proof (IH vl s1) as Hrest;
            destruct (ExponentialBackoff n cond vl s1) as [[?s2 ?t2] ?r2]
        end
      | ]
  end.

(** The number of writes never exceeds the steps of the backoff. *)
Lemma retry_loop_bounded st n chart lastErr s :
  length (writes (trace_of (retry_loop n st chart lastErr s))) <= n.
Proof.
  revert chart lastErr s. induction n as [|n IH]; intros chart lastErr s; [simpl; lia|].
  assert (IH' : forall vl s1,
             length (writes (trace_of
               (ExponentialBackoff n
                  (OnError_func1 IsConflict
                     (UpdateChartStatus_func1 lister_Get client_UpdateStatus (Some st)))
                  vl s1))) <= n) by (intros [v l] s1; apply IH).
  first_attempt st chart s; try (simpl; lia);
    retried IH'; unfold trace_of in *; simpl in *; lia.
Qed.

Lemma insert_keeps_allocated (h : gmap ptr (@HelmChart HelmChartSpec HelmChartStatus)) q c a :
  is_Some (h !! a) -> is_Some (<[q := c]> h !! a).
Proof.
  intros Ha. destruct (decide (q = a)) as [->|Hne].
  - rewrite lookup_insert_eq. by eexists.
  - by rewrite lookup_insert_ne.
Qed.

Lemma fresh_unallocated (h0 h : gmap ptr (@HelmChart HelmChartSpec HelmChartStatus)) :
  (forall a, is_Some (h0 !! a) -> is_Some (h !! a)) ->
  h0 !! fresh (dom h) = None.
Proof.
  intros Hincl. destruct (h0 !! fresh (dom h)) as [c|] eqn:Hf; [|done].
  exfalso. apply (is_fresh (dom h)). apply elem_of_dom. apply Hincl. by eexists.
Qed.

Lemma status_written_refl st (h : gmap ptr (@HelmChart HelmChartSpec HelmChartStatus)) :
  status_written st h h.
Proof. intros a ca Ha. by exists ca. Qed.

Lemma status_written_allocated st
    (h0 h : gmap ptr (@HelmChart HelmChartSpec HelmChartStatus)) a :
  status_written st h0 h -> is_Some (h0 !! a) -> is_Some (h !! a).
Proof. intros Hw [ca Ha]. destruct (Hw a ca Ha) as (ca' & Ha' & _). by eexists. Qed.

Lemma status_written_write st
    (h0 h : gmap ptr (@HelmChart HelmChartSpec HelmChartStatus)) q c :
  status_written st h0 h -> h !! q = Some c ->
  status_written st h0 (<[q := set_Status st c]> h).
Proof.
  intros Hw Hq a ca Ha. destruct (Hw a ca Ha) as (ca' & Ha' & Heq).
  destruct (decide (q = a)) as [->|Hne].
  - exists (set_Status st c). rewrite lookup_insert_eq. split; [done|].
    rewrite Hq in Ha'. injection Ha' as ->. by rewrite <- Heq.
  - exists ca'. by rewrite lookup_insert_ne.
Qed.

Lemma status_written_copy st
    (h0 h : gmap ptr (@HelmChart HelmChartSpec HelmChartStatus)) cu :
  status_written st h0 h -> status_written st h0 (<[fresh (dom h) := cu]> h).
Proof.
  intros Hw a ca Ha. destruct (Hw a ca Ha) as (ca' & Ha' & Heq).
  exists ca'. split; [|done]. rewrite lookup_insert_ne; [done|].
  intros Hf. apply (is_fresh (dom h)). rewrite Hf. apply elem_of_dom. by eexists.
Qed.

(** Every run of the loop follows the retry protocol. *)
Lemma retry_loop_protocol st h0 n chart expected lastErr s :
  status_written st h0 (heap s) ->
  (forall q c c', chart = Some q -> heap s !! q = Some c -> expected = Some c' ->
                  set_Status st c = c') ->
  retry_trace st h0 chart expected (trace_of (retry_loop n st chart lastErr s)).
Proof.
  revert chart expected lastErr s.
  induction n as [|n IH]; intros chart expected lastErr s Hinv Hexp; [apply retry_end|].
  assert (IH' : forall vl s1,
             forall expected1,
             status_written st h0 (heap s1) ->
             (forall q c c', vl.1 = Some q -> heap s1 !! q = Some c ->
                             expected1 = Some c' -> set_Status st c = c') ->
             retry_trace st h0 vl.1 expected1
               (trace_of
                  (ExponentialBackoff n
                     (OnError_func1 IsConflict
                        (UpdateChartStatus_func1 lister_Get client_UpdateStatus (Some st)))
                     vl s1))) by (intros [v l] s1 expected1; apply IH).
  assert (Hincl : forall a, is_Some (h0 !! a) -> is_Some (heap s !! a))
    by (intros a; by apply (status_written_allocated st)).
  assert (Hsent : forall q c, heap s !! q = Some c -> chart = Some q ->
            forall c', expected = Some c' -> set_Status st c = c')
    by (intros q c Hq Hc c' He; by eapply Hexp).
  revert Hsent. first_attempt st chart s; intros Hsent.
  - apply retry_end.
  - apply retry_end.
  - apply retry_success; [done|by apply (Hsent q c)].
  - retried IH'.
    + apply (retry_refetch_failed st h0 q (set_Status st c));
        [done|by apply (Hsent q c)|by right|].
      apply Hrest; cbn [heap fst].
      * by apply status_written_write.
      * intros q' c1 c2 [= <-]. rewrite lookup_insert_eq. by intros [= <-] [= <-].
    + apply (retry_refetch_failed st h0 q (set_Status st c));
        [done|by apply (Hsent q c)|by left|].
      apply retry_end.
  - retried IH'.
    + apply (retry_refetched st h0 q (set_Status st c) expected e None None);
        [done|by apply (Hsent q c)|done|by right|].
      apply Hrest; cbn [heap fst]; [by apply status_written_write|done].
    + apply (retry_refetched st h0 q (set_Status st c) expected e None None);
        [done|by apply (Hsent q c)|done|by left|].
      apply retry_end.
  - assert (Hfresh : h0 !! fresh (dom (<[q:=set_Status st c]> (heap s))) = None).
    { apply fresh_unallocated. intros a Ha. by apply insert_keeps_allocated, Hincl. }
    pose proof (status_written_write st h0 (heap s) q c Hinv H) as Hinv1.
    retried IH'.
    + apply (retry_refetched st h0 q (set_Status st c) expected e (Some u)
               (Some (fresh (dom (<[q:=set_Status st c]> (heap s))))));
        [done|by apply (Hsent q c)|by intros q' [= <-]|by right|].
      apply Hrest; cbn [heap fst]; [by apply status_written_copy|].
      intros q' c1 c2 [= <-]. rewrite lookup_insert_eq. intros [= <-].
      unfold refetched_object. destruct (h0 !! u) as [cu0|] eqn:Hu0; [|done].
      intros [= <-]. destruct (Hinv1 u cu0 Hu0) as (cu' & Hcu' & Heq). congruence.
    + apply (retry_refetched st h0 q (set_Status st c) expected e (Some u)
               (Some (fresh (dom (<[q:=set_Status st c]> (heap s))))));
        [done|by apply (Hsent q c)|by intros q' [= <-]|by left|].
      apply retry_end.
  - apply (retry_refetched st h0 q (set_Status st c) expected e (Some u) None);
      [done|by apply (Hsent q c)|done|by left|].
    apply retry_end.
Qed.

(** What one attempt does to the objects on the heap: the object behind
    [chart] gets the new status, in place; every other object is left as it
    is. *)
Lemma attempt_heap st chart s R a ca :
  attempt lister_Get client_UpdateStatus st chart s R ->
  heap s !! a = Some ca ->
  heap (store_of R) !! a = Some (if decide (chart = Some a) then set_Status st ca else ca).
Proof.
  intros Hatt Ha. unfold store_of.
  assert (Hins : forall q c, heap s !! q = Some c ->
            <[q := set_Status st c]> (heap s) !! a
            = Some (if decide (Some q = Some a) then set_Status st ca else ca)).
  { intros q c Hq. destruct (decide (q = a)) as [->|Hne].
    - rewrite lookup_insert_eq, decide_True by done. congruence.
    - rewrite lookup_insert_ne, decide_False by congruence. done. }
  destruct Hatt; cbn [fst snd heap]; eauto.
  - rewrite decide_False by congruence. done.
  - rewrite lookup_insert_ne; [eauto|].
    intros Heq. apply (is_fresh (dom (<[q:=set_Status st c]> (heap s)))).
    rewrite Heq. apply elem_of_dom. rewrite (Hins q c) by done. by eexists.
Qed.

(** Once an object carries the new status, no run of the loop changes it
    any more. *)
Lemma retry_loop_keeps_written st p c n chart lastErr s :
  heap s !! p = Some (set_Status st c) ->
  heap (store_of (retry_loop n st chart lastErr s)) !! p = Some (set_Status st c).
Proof.
  revert chart lastErr s. induction n as [|n IH]; intros chart lastErr s Hp; [done|].
  assert (IH' : forall vl s1,
             heap s1 !! p = Some (set_Status st c) ->
             heap (store_of
                     (ExponentialBackoff n
                        (OnError_func1 IsConflict
                           (UpdateChartStatus_func1 lister_Get client_UpdateStatus (Some st)))
                        vl s1)) !! p = Some (set_Status st c))
    by (intros [v l] s1; apply IH).
  pose proof (attempt_heap st chart s _ p _
                (UpdateChartStatus_func1_attempt st chart s) Hp) as Hstep.
  assert (Hstep' :
    heap (store_of (UpdateChartStatus_func1 lister_Get client_UpdateStatus (Some st) chart s))
      !! p = Some (set_Status st c)) by (rewrite Hstep; by case_decide).
  clear Hstep. rewrite ExponentialBackoff_step.
  destruct (UpdateChartStatus_func1 lister_Get client_UpdateStatus (Some st) chart s)
    as [[s1 t1] [[v1 [e|]]|]]; try done.
  destruct (IsConflict e); [|done].
  specialize (IH' (v1, Some e) s1 Hstep').
  by destruct (ExponentialBackoff n _ (v1, Some e) s1) as [[s2 t2] r2].
Qed.

(** The first attempt writes the new status into the object the caller
    passed, and it stays there. *)
Lemma retry_loop_writes_argument st p c n lastErr s :
  heap s !! p = Some c ->
  heap (store_of (retry_loop (S n) st (Some p) lastErr s)) !! p = Some (set_Status st c).
Proof.
  intros Hp.
  pose proof (attempt_heap st (Some p) s _ p _
                (UpdateChartStatus_func1_attempt st (Some p) s) Hp) as Hstep.
  rewrite decide_True in Hstep by done.
  rewrite ExponentialBackoff_step.
  destruct (UpdateChartStatus_func1 lister_Get client_UpdateStatus (Some st) (Some p) s)
    as [[s1 t1] [[v1 [e|]]|]]; try done.
  destruct (IsConflict e); [|done].
  pose proof (retry_loop_keeps_written st p c n v1 (Some e) s1 Hstep) as Hrest.
  by destruct (ExponentialBackoff n _ (v1, Some e) s1) as [[s2 t2] r2].
Qed.

(** [UpdateChartStatus] on an allocated chart is the retry loop with the
    steps of [DefaultRetry], and what [OnError] makes of its result. *)
Lemma UpdateChartStatus_run p c st s :
  heap s !! p = Some c ->
  UpdateChartStatus lister_Get client_UpdateStatus (Some p) (Some st) s =
  (store_of (retry_loop (Steps DefaultRetry) st (Some p) None s),
   trace_of (retry_loop (Steps DefaultRetry) st (Some p) None s),
   match outcome_of (retry_loop (Steps DefaultRetry) st (Some p) None s) with
   | Return (_, lastErr, err) => Return (timeout_to_last lastErr err)
   | Panicked => Panicked
   end).
Proof.
  intros Hp. unfold UpdateChartStatus, RetryOnConflict, OnError, load.
  unfold mbind at 1. unfold M_bind at 1. rewrite Hp.
  unfold mbind at 1. unfold M_bind at 1. unfold mbind at 1. unfold M_bind at 1.
  destruct (retry_loop (Steps DefaultRetry) st (Some p) None s)
    as [[s1 t1] [[[v1 lastErr] err]|]]; [|reflexivity].
  unfold store_of, trace_of, outcome_of, mret, M_ret. cbn. by rewrite ?app_nil_r.
Qed.

(** C1: [UpdateChartStatus] writes the new status through the pointer it
    was given: after the call the caller's object, which is the cache's
    object when the caller passes what the lister returned, carries the new
    status.  The first attempt works on the argument itself, not on a copy. *)
Theorem UpdateChartStatus_mutates_argument s p c st :
  heap s !! p = Some c ->
  heap (store_of (UpdateChartStatus lister_Get client_UpdateStatus (Some p) (Some st) s)) !! p
  = Some (set_Status st c).
Proof.
  intros Hp. rewrite (UpdateChartStatus_run p c st s Hp). unfold store_of at 1. cbn [fst].
  by apply retry_loop_writes_argument.
Qed.

(** Objects other than the argument are never written: the loop only ever
    writes through the argument or through a copy it allocated itself. *)
Lemma retry_loop_frame st (h0 : gmap ptr (@HelmChart HelmChartSpec HelmChartStatus))
    p a n chart lastErr s :
  (forall b, is_Some (h0 !! b) -> is_Some (heap s !! b)) ->
  (forall q, chart = Some q -> q = p \/ h0 !! q = None) ->
  is_Some (h0 !! a) -> a <> p ->
  heap (store_of (retry_loop n st chart lastErr s)) !! a = heap s !! a.
Proof.
  intros Hincl Hchart Ha Hne. revert chart lastErr s Hincl Hchart.
  induction n as [|n IH]; intros chart lastErr s Hincl Hchart; [done|].
  assert (IH' : forall vl s1,
             (forall b, is_Some (h0 !! b) -> is_Some (heap s1 !! b)) ->
             (forall q, vl.1 = Some q -> q = p \/ h0 !! q = None) ->
             heap (store_of
                     (ExponentialBackoff n
                        (OnError_func1 IsConflict
                           (UpdateChartStatus_func1 lister_Get client_UpdateStatus (Some st)))
                        vl s1)) !! a = heap s1 !! a)
    by (intros [v l] s1; apply IH).
  destruct (Hincl a Ha) as [ca Hca].
  assert (Hnot : chart <> Some a).
  { intros ->. destruct (Hchart a eq_refl) as [?|Hnone]; [done|].
    rewrite Hnone in Ha. by destruct Ha. }
  pose proof (attempt_heap st chart s _ a _
                (UpdateChartStatus_func1_attempt st chart s) Hca) as Hstep.
  rewrite decide_False in Hstep by done. rewrite <- Hca in Hstep.
  assert (Hincl1 : forall b, is_Some (h0 !! b) ->
            is_Some (heap (store_of (UpdateChartStatus_func1 lister_Get client_UpdateStatus
                                       (Some st) chart s)) !! b)).
  { intros b Hb. destruct (Hincl b Hb) as [cb Hcb].
    rewrite (attempt_heap st chart s _ b _
               (UpdateChartStatus_func1_attempt st chart s) Hcb). by eexists. }
  revert Hstep Hincl1. first_attempt st chart s; unfold store_of; cbn [fst snd heap];
    intros Hstep Hincl1; try done.
  - retried IH'; [|done]. unfold store_of in Hrest. cbn [fst snd] in *.
    rewrite Hrest; [done|done|]. intros q' [= <-]. by apply Hchart.
  - retried IH'; [|done]. unfold store_of in Hrest. cbn [fst snd] in *.
    rewrite Hrest; [done|done|]. by intros q' [=].
  - retried IH'; [|done]. unfold store_of in Hrest. cbn [fst snd] in *.
    rewrite Hrest; [done|done|]. intros q' [= <-]. right.
    apply fresh_unallocated. intros b Hb. by apply insert_keeps_allocated, Hincl.
Qed.

(** [UpdateChartStatus] writes no object but its argument: the objects of
    the cache that the lister hands out during the retries are copied, and
    the copies are written. *)
Theorem UpdateChartStatus_leaves_other_objects s p c st a :
  heap s !! p = Some c ->
  is_Some (heap s !! a) ->
  a <> p ->
  heap (store_of (UpdateChartStatus lister_Get client_UpdateStatus (Some p) (Some st) s)) !! a
  = heap s !! a.
Proof.
  intros Hp Ha Hne. rewrite (UpdateChartStatus_run p c st s Hp). unfold store_of at 1.
  cbn [fst]. apply (retry_loop_frame st (heap s) p); try done.
  intros q [= <-]. by left.
Qed.

(** When every write of a run met a conflict and the loop returned, the
    steps are used up, and the error remembered last is the answer to the
    last write. *)
Lemma retry_loop_exhausted st n chart lastErr s v' l' err :
  outcome_of (retry_loop n st chart lastErr s) = Return (v', l', err) ->
  Forall conflicted (writes (trace_of (retry_loop n st chart lastErr s))) ->
  length (writes (trace_of (retry_loop n st chart lastErr s))) = n
  /\ err = Some ErrWaitTimeout
  /\ l' = from_option snd lastErr (last (writes (trace_of (retry_loop n st chart lastErr s)))).
Proof.
  revert chart lastErr s. induction n as [|n IH]; intros chart lastErr s.
  { intros [= <- <- <-] _. done. }
  assert (IH' : forall vl s1,
    outcome_of (ExponentialBackoff n
                  (OnError_func1 IsConflict
                     (UpdateChartStatus_func1 lister_Get client_UpdateStatus (Some st)))
                  vl s1) = Return (v', l', err) ->
    Forall conflicted
      (writes (trace_of (ExponentialBackoff n
                 (OnError_func1 IsConflict
                    (UpdateChartStatus_func1 lister_Get client_UpdateStatus (Some st)))
                 vl s1))) ->
    length (writes (trace_of (ExponentialBackoff n
              (OnError_func1 IsConflict
                 (UpdateChartStatus_func1 lister_Get client_UpdateStatus (Some st)))
              vl s1))) = n
    /\ err = Some ErrWaitTimeout
    /\ l' = from_option snd vl.2
              (last (writes (trace_of (ExponentialBackoff n
                       (OnError_func1 IsConflict
                          (UpdateChartStatus_func1 lister_Get client_UpdateStatus (Some st)))
                       vl s1))))) by (intros [v l] s1; apply IH).
  first_attempt st chart s; try discriminate;
    [intros _ Hall; by inversion Hall|..];
    retried IH'; unfold outcome_of, trace_of, writes in *;
    cbn [fst snd app omap list_omap write_of] in *;
    intros Hout Hall; apply Forall_cons in Hall as [Hw Hws].
  all: try (unfold conflicted in Hw; cbn in Hw; congruence).
  all: destruct (Hrest Hout Hws) as (Hlen & Herr & Hl); rewrite last_cons;
    (split; [cbn [length]; by rewrite Hlen|]); (split; [done|]); by destruct (last _).
Qed.

(** A run whose last write was accepted returns, and it returns nil. *)
Lemma retry_loop_success st n chart lastErr s q c :
  last (writes (trace_of (retry_loop n st chart lastErr s))) = Some (q, c, None) ->
  exists v' l', outcome_of (retry_loop n st chart lastErr s) = Return (v', l', None).
Proof.
  revert chart lastErr s. induction n as [|n IH]; intros chart lastErr s; [discriminate|].
  assert (IH' : forall vl s1,
    last (writes (trace_of (ExponentialBackoff n
            (OnError_func1 IsConflict
               (UpdateChartStatus_func1 lister_Get client_UpdateStatus (Some st)))
            vl s1))) = Some (q, c, None) ->
    exists v' l',
      outcome_of (ExponentialBackoff n
                    (OnError_func1 IsConflict
                       (UpdateChartStatus_func1 lister_Get client_UpdateStatus (Some st)))
                    vl s1) = Return (v', l', None)) by (intros [v l] s1; apply IH).
  first_attempt st chart s; try discriminate;
    [intros _; by eexists _, _|..];
    (retried IH';
     [unfold outcome_of, trace_of, writes in *;
      cbn [fst snd app omap list_omap write_of] in *;
      rewrite last_cons; destruct (last _); [done|discriminate]
     |discriminate]).
Qed.

(** With a lister that answers a successful lookup with an object of the
    cache, the loop never panics. *)
Lemma retry_loop_returns st (h0 : gmap ptr (@HelmChart HelmChartSpec HelmChartStatus))
    n chart lastErr s :
  (forall x ns name updated,
     lister_Get x ns name = (updated, None) ->
     exists u, updated = Some u /\ is_Some (h0 !! u)) ->
  (forall b, is_Some (h0 !! b) -> is_Some (heap s !! b)) ->
  (exists q, chart = Some q /\ is_Some (heap s !! q)) ->
  exists r, outcome_of (retry_loop n st chart lastErr s) = Return r.
Proof.
  intros Hlister. revert chart lastErr s.
  induction n as [|n IH]; intros chart lastErr s Hincl Hchart; [by eexists|].
  assert (IH' : forall vl s1,
    (forall b, is_Some (h0 !! b) -> is_Some (heap s1 !! b)) ->
    (exists q, vl.1 = Some q /\ is_Some (heap s1 !! q)) ->
    exists r,
      outcome_of (ExponentialBackoff n
                    (OnError_func1 IsConflict
                       (UpdateChartStatus_func1 lister_Get client_UpdateStatus (Some st)))
                    vl s1) = Return r) by (intros [v l] s1; apply IH).
  destruct Hchart as (q0 & Hq0 & Halloc). revert Hq0 Halloc Hincl.
  first_attempt st chart s; intros Hq0 Halloc Hincl; try discriminate.
  - injection Hq0 as <-. rewrite H in Halloc. by destruct Halloc.
  - by eexists.
  - retried IH'; [|by eexists]. apply Hrest.
    + intros b Hb. by apply insert_keeps_allocated, Hincl.
    + exists q. split; [done|]. by apply insert_keeps_allocated.
  - destruct (Hlister _ _ _ _ H1) as (u & [=] & _).
  - retried IH'; [|by eexists]. apply Hrest.
    + intros b Hb. by apply insert_keeps_allocated, insert_keeps_allocated, Hincl.
    + eexists. split; [done|]. cbn [heap]. rewrite lookup_insert_eq. by eexists.
  - destruct (Hlister _ _ _ _ H1) as (u' & [= <-] & Hu).
    apply Hincl in Hu. apply (insert_keeps_allocated _ q (set_Status st c)) in Hu.
    rewrite H2 in Hu. by destruct Hu.
Qed.

(** A loop with steps left, started on an allocated chart, writes at least
    once. *)
Lemma retry_loop_attempts st n chart q c lastErr s :
  chart = Some q ->
  heap s !! q = Some c ->
  1 <= length (writes (trace_of (retry_loop (S n) st chart lastErr s))).
Proof.
  assert (Hany : forall (vl : option ptr * option error)
                   (s1 : @Store HelmChartSpec HelmChartStatus Ext), True) by done.
  first_attempt st chart s; intros Hc Hq; try discriminate;
    try (injection Hc as <-; congruence); try (simpl; lia);
    retried Hany; unfold trace_of, writes; cbn; lia.
Qed.

(** What is sent is what is stored: every object a run of the loop sends to
    the API server is, after the run, the object behind the pointer it was
    written through. *)
Lemma retry_loop_writes_stored st n chart lastErr s q c r :
  (q, c, r) ∈ writes (trace_of (retry_loop n st chart lastErr s)) ->
  heap (store_of (retry_loop n st chart lastErr s)) !! q = Some c.
Proof.
  revert chart lastErr s. induction n as [|n IH]; intros chart lastErr s;
    [by intros ?%elem_of_nil|].
  assert (IH' : forall vl s1,
    ((q, c, r) ∈ writes (trace_of (ExponentialBackoff n
        (OnError_func1 IsConflict
           (UpdateChartStatus_func1 lister_Get client_UpdateStatus (Some st))) vl s1)) ->
     heap (store_of (ExponentialBackoff n
        (OnError_func1 IsConflict
           (UpdateChartStatus_func1 lister_Get client_UpdateStatus (Some st))) vl s1)) !! q
     = Some c)
    /\ (forall a ca, heap s1 !! a = Some (set_Status st ca) ->
        heap (store_of (ExponentialBackoff n
          (OnError_func1 IsConflict
             (UpdateChartStatus_func1 lister_Get client_UpdateStatus (Some st))) vl s1)) !! a
        = Some (set_Status st ca))).
  { intros [v l] s1. split; [apply IH|]. intros a ca. apply retry_loop_keeps_written. }
  assert (Hcopy : forall (h : gmap ptr (@HelmChart HelmChartSpec HelmChartStatus)) a ca cu,
            h !! a = Some ca -> <[fresh (dom h) := cu]> h !! a = Some ca).
  { intros h a ca cu Ha. rewrite lookup_insert_ne; [done|].
    intros Hf. apply (is_fresh (dom h)). rewrite Hf. apply elem_of_dom. by eexists. }
  first_attempt st chart s; project_run; unfold writes;
    cbn [omap list_omap write_of app]; try (by intros ?%elem_of_nil).
  - intros [= -> -> ->]%list_elem_of_singleton. cbn [heap]. apply lookup_insert_eq.
  - retried IH'.
    + destruct Hrest as [Hin Hkeep]. project_run.
      cbn [omap list_omap write_of].
      unfold store_of, trace_of, writes in Hin, Hkeep. cbn [fst snd heap] in Hin, Hkeep.
      intros [[= -> -> ->]|Hrest]%elem_of_cons; [|by apply Hin].
      apply Hkeep, lookup_insert_eq.
    + project_run. cbn [omap list_omap write_of].
      intros [= -> -> ->]%list_elem_of_singleton. cbn [heap]. apply lookup_insert_eq.
  - retried IH'.
    + destruct Hrest as [Hin Hkeep]. project_run.
      cbn [omap list_omap write_of].
      unfold store_of, trace_of, writes in Hin, Hkeep. cbn [fst snd heap] in Hin, Hkeep.
      intros [[= -> -> ->]|Hrest]%elem_of_cons; [|by apply Hin].
      apply Hkeep, lookup_insert_eq.
    + project_run. cbn [omap list_omap write_of].
      intros [= -> -> ->]%list_elem_of_singleton. cbn [heap]. apply lookup_insert_eq.
  - retried IH'.
    + destruct Hrest as [Hin Hkeep]. project_run.
      cbn [omap list_omap write_of].
      unfold store_of, trace_of, writes in Hin, Hkeep. cbn [fst snd heap] in Hin, Hkeep.
      intros [[= -> -> ->]|Hrest]%elem_of_cons; [|by apply Hin].
      apply Hkeep, Hcopy, lookup_insert_eq.
    + project_run. cbn [omap list_omap write_of].
      intros [= -> -> ->]%list_elem_of_singleton. cbn [heap].
      apply Hcopy, lookup_insert_eq.
  - intros [= -> -> ->]%list_elem_of_singleton. cbn [heap]. apply lookup_insert_eq.
Qed.

(** C9: the retry protocol of [UpdateChartStatus] on an allocated chart.

    - Budget: at least one and at most [Steps DefaultRetry] status writes.
    - Protocol ([retry_trace]): the first write sends the argument with the
      new status; every write sends the new status; a failed write is
      followed by a lookup in the lister; after a successful lookup the
      retry writes through a newly allocated copy, and what it sends is the
      object the lister returned, as the store held it at the start of the
      call, with the new status; a failed lookup is reported to
      [HandleError] and the retry goes on with the same object; only a
      conflict is retried.
    - Store: every object sent is, after the call, the object the store
      holds behind the pointer it was written through: the new status is
      applied to the copy, and the copy is sent.
    - Exhaustion: when all writes met a conflict and the call returns, the
      budget is used up and the call returns the answer to the last write.
    - Success: when the last write was accepted the call returns nil.
    - The call returns whenever the lister answers successful lookups with
      objects of the cache. *)
Theorem UpdateChartStatus_retry s p c st :
  heap s !! p = Some c ->
  1 <= length (writes (trace_of
         (UpdateChartStatus lister_Get client_UpdateStatus (Some p) (Some st) s)))
    <= Steps DefaultRetry
  /\ retry_trace st (heap s) (Some p) (Some (set_Status st c))
       (trace_of (UpdateChartStatus lister_Get client_UpdateStatus (Some p) (Some st) s))
  /\ (forall q' c' r,
        (q', c', r) ∈ writes (trace_of
          (UpdateChartStatus lister_Get client_UpdateStatus (Some p) (Some st) s)) ->
        heap (store_of
                (UpdateChartStatus lister_Get client_UpdateStatus (Some p) (Some st) s))
          !! q' = Some c')
  /\ (forall r,
        outcome_of (UpdateChartStatus lister_Get client_UpdateStatus (Some p) (Some st) s)
        = Return r ->
        Forall conflicted
          (writes (trace_of
             (UpdateChartStatus lister_Get client_UpdateStatus (Some p) (Some st) s))) ->
        length (writes (trace_of
          (UpdateChartStatus lister_Get client_UpdateStatus (Some p) (Some st) s)))
        = Steps DefaultRetry
        /\ exists w,
             last (writes (trace_of
               (UpdateChartStatus lister_Get client_UpdateStatus (Some p) (Some st) s)))
             = Some w
             /\ r = w.2)
  /\ (forall q' c',
        last (writes (trace_of
          (UpdateChartStatus lister_Get client_UpdateStatus (Some p) (Some st) s)))
        = Some (q', c', None) ->
        outcome_of (UpdateChartStatus lister_Get client_UpdateStatus (Some p) (Some st) s)
        = Return None)
  /\ ((forall x ns name updated,
         lister_Get x ns name = (updated, None) ->
         exists u, updated = Some u /\ is_Some (heap s !! u)) ->
      exists r,
        outcome_of (UpdateChartStatus lister_Get client_UpdateStatus (Some p) (Some st) s)
        = Return r).
Proof.
  intros Hp.
  assert (Htrace :
    trace_of (UpdateChartStatus lister_Get client_UpdateStatus (Some p) (Some st) s)
    = trace_of (retry_loop (Steps DefaultRetry) st (Some p) None s))
    by (by rewrite (UpdateChartStatus_run p c st s Hp)).
  assert (Hstore :
    store_of (UpdateChartStatus lister_Get client_UpdateStatus (Some p) (Some st) s)
    = store_of (retry_loop (Steps DefaultRetry) st (Some p) None s))
    by (by rewrite (UpdateChartStatus_run p c st s Hp)).
  assert (Hout :
    outcome_of (UpdateChartStatus lister_Get client_UpdateStatus (Some p) (Some st) s)
    = match outcome_of (retry_loop (Steps DefaultRetry) st (Some p) None s) with
      | Return (_, lastErr, err) => Return (timeout_to_last lastErr err)
      | Panicked => Panicked
      end)
    by (by rewrite (UpdateChartStatus_run p c st s Hp)).
  rewrite Htrace, Hout, Hstore. clear Htrace Hout Hstore.
  split; [|split; [|split; [|split; [|split]]]].
  - split; [by eapply retry_loop_attempts|apply retry_loop_bounded].
  - apply retry_loop_protocol; [apply status_written_refl|].
    intros q c1 c2 [= <-] Hq [= <-]. congruence.
  - intros q' c' r. apply retry_loop_writes_stored.
  - intros r Hr Hall.
    destruct (outcome_of (retry_loop (Steps DefaultRetry) st (Some p) None s))
      as [[[v' l'] err]|] eqn:Hloop; [|discriminate].
    destruct (retry_loop_exhausted _ _ _ _ _ _ _ _ Hloop Hall) as (Hlen & -> & Hl).
    split; [done|]. injection Hr as <-. cbn [timeout_to_last].
    destruct (last _) as [w|] eqn:Hlast.
    + by exists w.
    + apply last_None in Hlast. rewrite Hlast in Hlen. discriminate.
  - intros q' c' Hlast.
    destruct (retry_loop_success _ _ _ _ _ _ _ Hlast) as (v' & l' & ->). done.
  - intros Hlister.
    destruct (retry_loop_returns st (heap s) (Steps DefaultRetry) (Some p) None s)
      as [[[v' l'] err] ->]; [done|done| |by eexists].
    exists p. split; [done|]. by eexists.
Qed.

(** * Further properties *)

(** ** Notifications, from the informer to the queue *)

Lemma enqueue_cases s chart :
  enqueue chart s = (s, [], Panicked)
  \/ exists key, enqueue chart s = (s, [QAdd (VString key)], Return tt).
Proof.
  destruct chart as [p|]; [|by left].
  destruct (heap s !! p) as [c|] eqn:Hp.
  - right. eexists. by apply enqueue_live.
  - left. unfold enqueue, MetaNamespaceKeyFunc, load, mbind, M_bind. by rewrite Hp.
Qed.

(** The three handlers run and leave the store alone; what they call is
    nothing, or one [Add] of a key, or one [HandleError]. *)
Lemma handler_effects (run : @M HelmChartSpec HelmChartStatus Ext unit) s :
  (exists chart, run = enqueue chart)
  \/ run = panic
  \/ run = mret tt
  \/ (exists err, run = emit (HandleError err)) ->
  store_of (run s) = s
  /\ (trace_of (run s) = []
      \/ (exists key, trace_of (run s) = [QAdd (VString key)])
      \/ (exists err, trace_of (run s) = [HandleError err])).
Proof.
  intros [[chart ->]|[->|[->|[err ->]]]].
  - destruct (enqueue_cases s chart) as [->|[key ->]]; split; eauto.
  - split; eauto.
  - split; eauto.
  - split; eauto.
Qed.

Lemma addHelmChart_shape obj :
  (exists chart, @addHelmChart HelmChartSpec HelmChartStatus Ext obj = enqueue chart)
  \/ @addHelmChart HelmChartSpec HelmChartStatus Ext obj = panic.
Proof. destruct obj; eauto. Qed.

Lemma deleteHelmChart_shape obj :
  (exists chart, @deleteHelmChart HelmChartSpec HelmChartStatus Ext obj = enqueue chart)
  \/ (exists err, @deleteHelmChart HelmChartSpec HelmChartStatus Ext obj
                  = emit (HandleError err)).
Proof.
  destruct obj as [| |chart|k inner|]; eauto. destruct inner; eauto.
Qed.

Lemma updateHelmChart_effects old_obj new_obj s :
  store_of (updateHelmChart old_obj new_obj s) = s
  /\ (trace_of (updateHelmChart old_obj new_obj s) = []
      \/ (exists key, trace_of (updateHelmChart old_obj new_obj s) = [QAdd (VString key)])
      \/ (exists err, trace_of (updateHelmChart old_obj new_obj s) = [HandleError err])).
Proof.
  destruct old_obj as [| |oldChart| |]; try (split; eauto; fail).
  destruct new_obj as [| |newChart| |]; try (split; eauto; fail).
  unfold updateHelmChart, load, mbind, M_bind, mret, M_ret.
  destruct oldChart as [p|]; [|split; eauto].
  destruct (heap s !! p) as [o|]; [|split; eauto].
  destruct newChart as [q|]; [|split; eauto].
  destruct (heap s !! q) as [n|] eqn:Hq; [|split; eauto].
  destruct (decide (Spec o = Spec n)); [split; eauto|].
  rewrite (enqueue_live s q n Hq). split; eauto.
Qed.

(** [NewController] refuses a nil sync handler and then registers nothing.
    With a handler it registers one set of funcs with the informer:
    [addHelmChart], [updateHelmChart] and [deleteHelmChart], for the three
    kinds of notification; and whatever notification the informer delivers
    through them, with whatever payload, the store is left as it is and the
    handler makes at most one call: one [Add] of a key to the queue, or one
    [HandleError]. *)
Theorem delivered_notification_effects handler :
  NewController client_UpdateStatus lister_Get None
  = (None, Some (NewError "syncHandler must be set"), [])
  /\ exists funcs,
       (NewController client_UpdateStatus lister_Get (Some handler)).2 = [funcs]
       /\ AddFunc funcs = Some addHelmChart
       /\ UpdateFunc funcs = Some updateHelmChart
       /\ DeleteFunc funcs = Some deleteHelmChart
       /\ forall n s,
            store_of (deliver funcs n s) = s
            /\ (trace_of (deliver funcs n s) = []
                \/ (exists key, trace_of (deliver funcs n s) = [QAdd (VString key)])
                \/ (exists err, trace_of (deliver funcs n s) = [HandleError err])).
Proof.
  split; [reflexivity|].
  exists (mkResourceEventHandlerFuncs
            (Some addHelmChart) (Some updateHelmChart) (Some deleteHelmChart)).
  do 4 (split; [reflexivity|]). intros n s.
  destruct n as [obj|old_obj new_obj|obj]; cbn [deliver AddFunc UpdateFunc DeleteFunc].
  - apply handler_effects. destruct (addHelmChart_shape obj) as [[chart H]|H]; rewrite H; eauto.
  - apply updateHelmChart_effects.
  - apply handler_effects. destruct (deleteHelmChart_shape obj) as [[chart H]|[err H]];
      rewrite H; eauto 6.
Qed.

(** ** Keys, continued *)

Lemma Split_length key : length (Split key) = S (count_slash key).
Proof.
  induction key as [|c rest IH]; [done|]. cbn [Split count_slash].
  destruct (Ascii.eqb c "/"); cbn [length]; [by rewrite IH|].
  destruct (Split rest); [discriminate IH|]. cbn [length] in *. lia.
Qed.

Lemma Split_single key : count_slash key = 0 -> Split key = [key].
Proof.
  induction key as [|c rest IH]; [done|]. cbn [Split count_slash].
  destruct (Ascii.eqb c "/"); [discriminate|]. intros Hrest. by rewrite (IH Hrest).
Qed.

(** The round trip of a key, for the use of the properties below. *)
Lemma SplitMetaNamespaceKey_MetaNamespaceKey (ns name : string) :
  no_slash ns = true -> no_slash name = true ->
  SplitMetaNamespaceKey (MetaNamespaceKey ns name) = (ns, name, None).
Proof.
  intros Hns Hname. unfold SplitMetaNamespaceKey, MetaNamespaceKey.
  case_decide as Hempty.
  - subst ns. by rewrite (Split_no_slash name Hname).
  - by rewrite (Split_namespace_name ns name Hns), (Split_no_slash name Hname).
Qed.

(** Keys identify resources: two resources get the same key only when they
    have the same namespace and the same name. *)
Theorem MetaNamespaceKey_injective (ns name ns' name' : string) :
  no_slash ns = true -> no_slash name = true ->
  no_slash ns' = true -> no_slash name' = true ->
  MetaNamespaceKey ns name = MetaNamespaceKey ns' name' ->
  ns = ns' /\ name = name'.
Proof.
  intros Hns Hname Hns' Hname' Hkey.
  pose proof (SplitMetaNamespaceKey_MetaNamespaceKey ns name Hns Hname) as Hsplit.
  rewrite Hkey, (SplitMetaNamespaceKey_MetaNamespaceKey ns' name' Hns' Hname') in Hsplit.
  by injection Hsplit as <- <-.
Qed.

(** Which keys [syncHandler] takes: a key with two or more slashes is
    reported as invalid and nothing is looked up; a key with at most one
    slash is looked up, and a key without a slash, the empty key among
    them, is looked up as a name in the empty namespace. *)
Theorem syncHandler_key_format s key :
  (2 <= count_slash key ->
   syncHandler lister_Get SyncHandler key s
   = (s, [HandleError (Errorf_invalid_resource_key key)], Return None))
  /\ (count_slash key <= 1 ->
      exists ns name rest,
        trace_of (syncHandler lister_Get SyncHandler key s)
        = CallListerGet ns name (lister_Get (ext s) ns name) :: rest
        /\ (count_slash key = 0 -> ns = "" /\ name = key)).
Proof.
  pose proof (Split_length key) as Hlen. pose proof (Split_single key) as Hsingle.
  rewrite syncHandler_unfold. unfold SplitMetaNamespaceKey.
  destruct (Split key) as [|a [|b [|c parts]]]; cbn [length] in Hlen; split; intros Hcount;
    try lia; try reflexivity.
  - exists "", a. cbv zeta.
    destruct (IsNotFound _); [|destruct (lister_Get (ext s) "" a).2];
      eexists; (split; [reflexivity|]); intros H0; by injection (Hsingle H0) as ->.
  - exists a, b. cbv zeta.
    destruct (IsNotFound _); [|destruct (lister_Get (ext s) a b).2];
      eexists; (split; [reflexivity|]); lia.
Qed.

(** ** Reconciler, continued *)




(** [syncHandler] and the pluggable handler: the handler is called at most
    once, only for a key whose lookup returned no error, with the chart the
    lister returned; the store is what the handler made of it, and it is
    unchanged when the handler was not called. *)
Theorem syncHandler_handler_calls s key :
  (List.filter is_CallSyncHandler (trace_of (syncHandler lister_Get SyncHandler key s)) = []
   /\ store_of (syncHandler lister_Get SyncHandler key s) = s)
  \/ (exists ns name chart,
        SplitMetaNamespaceKey key = (ns, name, None)
        /\ lister_Get (ext s) ns name = (chart, None)
        /\ List.filter is_CallSyncHandler (trace_of (syncHandler lister_Get SyncHandler key s))
           = [CallSyncHandler chart (SyncHandler chart s).2]
        /\ store_of (syncHandler lister_Get SyncHandler key s) = (SyncHandler chart s).1).
Proof.
  rewrite syncHandler_unfold.
  destruct (SplitMetaNamespaceKey key) as [[ns name] [e|]] eqn:Hsplit; [by left|].
  cbv zeta. destruct (lister_Get (ext s) ns name) as [chart err] eqn:Hget. cbn [fst snd].
  destruct (IsNotFound err) eqn:Hnf; [by left|].
  destruct err as [e|]; [by left|].
  right. by exists ns, name, chart.
Qed.


(** ** Status persister, continued *)

(** A nil chart, and a nil status, make [UpdateChartStatus] panic before it
    has written or sent anything. *)
Theorem UpdateChartStatus_nil_arguments s chart status :
  UpdateChartStatus lister_Get client_UpdateStatus None status s = (s, [], Panicked)
  /\ UpdateChartStatus lister_Get client_UpdateStatus chart None s = (s, [], Panicked).
Proof.
  split; [reflexivity|].
  destruct chart as [p|]; [|reflexivity].
  unfold UpdateChartStatus, RetryOnConflict, OnError, load.
  unfold mbind at 1. unfold M_bind at 1.
  destruct (heap s !! p) as [c|] eqn:Hp; [|reflexivity].
  unfold mbind at 1. unfold M_bind at 1. unfold mbind at 1. unfold M_bind at 1.
  change (Steps DefaultRetry) with 5. rewrite ExponentialBackoff_step.
  unfold UpdateChartStatus_func1, load, panic, mbind, M_bind. by rewrite Hp.
Qed.

Lemma failed_writes_le_writes (t : list (@Event HelmChartSpec HelmChartStatus)) :
  length (List.filter is_failed_write t) <= length (writes t).
Proof.
  induction t as [|e t IH]; [done|].
  destruct e as [| | | | | | | |q c [err|]| | |]; cbn [List.filter is_failed_write length];
    unfold writes in *; cbn [omap list_omap write_of length];
    first [exact IH | apply le_n_S, IH | apply le_S, IH].
Qed.

(** Each failed write allocates at most one object, the copy for the retry. *)
Lemma retry_loop_allocation st n chart lastErr s :
  size (heap (store_of (retry_loop n st chart lastErr s)))
  <= size (heap s)
     + length (List.filter is_failed_write (trace_of (retry_loop n st chart lastErr s))).
Proof.
  revert chart lastErr s. induction n as [|n IH]; intros chart lastErr s;
    [rewrite ExponentialBackoff_zero; project_run; cbn [List.filter length]; lia|].
  assert (IH' : forall vl s1,
    size (heap (store_of
      (ExponentialBackoff n
         (OnError_func1 IsConflict
            (UpdateChartStatus_func1 lister_Get client_UpdateStatus (Some st))) vl s1)))
    <= size (heap s1)
       + length (List.filter is_failed_write (trace_of
           (ExponentialBackoff n
              (OnError_func1 IsConflict
                 (UpdateChartStatus_func1 lister_Get client_UpdateStatus (Some st))) vl s1))))
    by (intros [v l] s1; apply IH).
  assert (Hsame : forall q c c', heap s !! q = Some c ->
            size (<[q := c']> (heap s)) = size (heap s))
    by (intros q c c' Hq; by apply map_size_insert_Some).
  assert (Hfresh : forall (h : gmap ptr (@HelmChart HelmChartSpec HelmChartStatus)) cu,
            size (<[fresh (dom h) := cu]> h) = S (size h)).
  { intros h cu. apply map_size_insert_None, not_elem_of_dom, is_fresh. }
  first_attempt st chart s; project_run; cbn [heap]; try (cbn [List.filter is_failed_write length]; lia);
    try (rewrite (Hsame q c) by done; cbn [List.filter is_failed_write length]; lia).
  - retried IH'; project_run;
      try (unfold store_of, trace_of in Hrest; cbn [fst snd] in Hrest); cbn [heap] in *.
    + rewrite (Hsame q c) in Hrest by done. rewrite List.filter_app, length_app. cbn [List.filter is_failed_write length]. lia.
    + rewrite (Hsame q c) by done. cbn [List.filter is_failed_write length]. lia.
  - retried IH'; project_run;
      try (unfold store_of, trace_of in Hrest; cbn [fst snd] in Hrest); cbn [heap] in *.
    + rewrite (Hsame q c) in Hrest by done. rewrite List.filter_app, length_app. cbn [List.filter is_failed_write length]. lia.
    + rewrite (Hsame q c) by done. cbn [List.filter is_failed_write length]. lia.
  - retried IH'; project_run;
      try (unfold store_of, trace_of in Hrest; cbn [fst snd] in Hrest); cbn [heap] in *.
    + rewrite Hfresh, (Hsame q c) in Hrest by done.
      rewrite List.filter_app, length_app. cbn [List.filter is_failed_write length]. lia.
    + rewrite Hfresh, (Hsame q c) by done. cbn [List.filter is_failed_write length]. lia.
Qed.

Lemma retry_loop_keeps_allocated st n chart lastErr s a :
  is_Some (heap s !! a) ->
  is_Some (heap (store_of (retry_loop n st chart lastErr s)) !! a).
Proof.
  revert chart lastErr s. induction n as [|n IH]; intros chart lastErr s Ha; [done|].
  assert (IH' : forall vl s1,
             is_Some (heap s1 !! a) ->
             is_Some (heap (store_of
                     (ExponentialBackoff n
                        (OnError_func1 IsConflict
                           (UpdateChartStatus_func1 lister_Get client_UpdateStatus (Some st)))
                        vl s1)) !! a))
    by (intros [v l] s1; apply IH).
  assert (Hstep :
    is_Some (heap (store_of (UpdateChartStatus_func1 lister_Get client_UpdateStatus
                               (Some st) chart s)) !! a)).
  { destruct Ha as [ca Hca].
    rewrite (attempt_heap st chart s _ a _
               (UpdateChartStatus_func1_attempt st chart s) Hca). by eexists. }
  rewrite ExponentialBackoff_step.
  destruct (UpdateChartStatus_func1 lister_Get client_UpdateStatus (Some st) chart s)
    as [[s1 t1] [[v1 [e|]]|]]; try done.
  destruct (IsConflict e); [|done].
  specialize (IH' (v1, Some e) s1 Hstep).
  by destruct (ExponentialBackoff n _ (v1, Some e) s1) as [[s2 t2] r2].
Qed.

(** What a call of [UpdateChartStatus] costs in memory: it allocates at
    most one object per failed write, so at most [Steps DefaultRetry]
    objects in all, and it frees nothing. *)
Theorem UpdateChartStatus_allocation_bound s p c st :
  heap s !! p = Some c ->
  size (heap (store_of (UpdateChartStatus lister_Get client_UpdateStatus
                          (Some p) (Some st) s)))
  <= size (heap s)
     + length (List.filter is_failed_write
                 (trace_of (UpdateChartStatus lister_Get client_UpdateStatus
                              (Some p) (Some st) s)))
  /\ length (List.filter is_failed_write
               (trace_of (UpdateChartStatus lister_Get client_UpdateStatus
                            (Some p) (Some st) s)))
     <= Steps DefaultRetry
  /\ forall a,
       is_Some (heap s !! a) ->
       is_Some (heap (store_of (UpdateChartStatus lister_Get client_UpdateStatus
                                  (Some p) (Some st) s)) !! a).
Proof.
  intros Hp. rewrite (UpdateChartStatus_run p c st s Hp). project_run.
  split; [apply retry_loop_allocation|]. split.
  - etrans; [apply failed_writes_le_writes|apply retry_loop_bounded].
  - intros a. apply retry_loop_keeps_allocated.
Qed.

(** The calls of a trace that follows the retry protocol. *)
Lemma retry_trace_accounting st (h0 : gmap ptr (@HelmChart HelmChartSpec HelmChartStatus))
    chart expected t :
  retry_trace st h0 chart expected t ->
  length (List.filter is_CallListerGet t) = length (List.filter is_failed_write t)
  /\ length (List.filter is_HandleError t) = length (List.filter is_failed_lookup t)
  /\ List.filter (fun e => negb (is_persister_call e)) t = [].
Proof.
  induction 1 as [| |q c expected e updated copy rest _ _ _ _ _ (IH1 & IH2 & IH3)
                    |q c expected e updated e1 rest _ _ _ _ (IH1 & IH2 & IH3)];
    cbn; repeat split; auto; lia.
Qed.

(** What [UpdateChartStatus] calls: the lister once after each failed
    write, [HandleError] once after each failed lookup, and besides the
    status writes nothing else, neither the work queue nor the sync
    handler. *)
Theorem UpdateChartStatus_calls s p c st :
  heap s !! p = Some c ->
  length (List.filter is_CallListerGet
            (trace_of (UpdateChartStatus lister_Get client_UpdateStatus (Some p) (Some st) s)))
  = length (List.filter is_failed_write
              (trace_of (UpdateChartStatus lister_Get client_UpdateStatus
                           (Some p) (Some st) s)))
  /\ length (List.filter is_HandleError
               (trace_of (UpdateChartStatus lister_Get client_UpdateStatus
                            (Some p) (Some st) s)))
     = length (List.filter is_failed_lookup
                 (trace_of (UpdateChartStatus lister_Get client_UpdateStatus
                              (Some p) (Some st) s)))
  /\ List.filter (fun e => negb (is_persister_call e))
       (trace_of (UpdateChartStatus lister_Get client_UpdateStatus (Some p) (Some st) s))
     = [].
Proof.
  intros Hp. rewrite (UpdateChartStatus_run p c st s Hp). project_run.
  apply (retry_trace_accounting st (heap s) (Some p) None).
  apply retry_loop_protocol; [apply status_written_refl|done].
Qed.

(** An error that is not a conflict is not retried: the one write is made,
    the lister is asked once, and the error of the write is returned.  The
    one exception is [ErrWaitTimeout]: when the write fails with that very
    error, [OnError] takes it for the timeout of its own loop and returns
    the last error it remembered, which is nil. *)
Theorem UpdateChartStatus_error_not_retried s p c st x1 e :
  heap s !! p = Some c ->
  client_UpdateStatus (ext s) (set_Status st c) = (x1, Some e) ->
  IsConflict e = false ->
  writes (trace_of (UpdateChartStatus lister_Get client_UpdateStatus (Some p) (Some st) s))
  = [(p, set_Status st c, Some e)]
  /\ length (List.filter is_CallListerGet
               (trace_of (UpdateChartStatus lister_Get client_UpdateStatus
                            (Some p) (Some st) s))) = 1
  /\ ((forall u, lister_Get x1 (Namespace c) (Name c) = (Some u, None) ->
                 is_Some (heap s !! u)) ->
      (e <> ErrWaitTimeout ->
       outcome_of (UpdateChartStatus lister_Get client_UpdateStatus (Some p) (Some st) s)
       = Return (Some e))
      /\ (e = ErrWaitTimeout ->
          outcome_of (UpdateChartStatus lister_Get client_UpdateStatus (Some p) (Some st) s)
          = Return None)).
Proof.
  intros Hp Hclient Hconflict. rewrite (UpdateChartStatus_run p c st s Hp). project_run.
  change (Steps DefaultRetry) with 5. rewrite ExponentialBackoff_step.
  rewrite (UpdateChartStatus_func1_run st p c s Hp). cbv zeta. rewrite Hclient.
  cbn [fst snd].
  assert (Hret : (e <> ErrWaitTimeout -> Return (timeout_to_last None (Some e))
                                         = Return (Some e))
                 /\ (e = ErrWaitTimeout -> Return (timeout_to_last None (Some e))
                                           = @Return (option error) None)).
  { split; [by destruct e|by intros ->]. }
  destruct (lister_Get x1 (Namespace c) (Name c)) as [updated [e1|]] eqn:Hget; cbn [fst snd].
  { rewrite Hconflict. project_run. cbv beta iota. done. }
  destruct updated as [u|]; [|rewrite Hconflict; project_run; cbv beta iota; done].
  destruct (<[p:=set_Status st c]> (heap s) !! u) as [cu|] eqn:Hu.
  - rewrite Hconflict. project_run. cbv beta iota. done.
  - project_run. split; [done|]. split; [done|]. intros Hlister. exfalso.
    pose proof (insert_keeps_allocated _ p (set_Status st c) _ (Hlister u eq_refl))
      as Halloc.
    rewrite Hu in Halloc. by destruct Halloc.
Qed.

(** ** Startup, continued *)

Lemma WaitForCacheSync_polls polls s :
  exists answers,
    WaitForCacheSync polls s = (s, map HasSynced answers, Return (existsb id polls)).
Proof.
  induction polls as [|synced rest (answers & IH)]; [by exists []|].
  cbn [WaitForCacheSync]. unfold mbind, M_bind, emit. destruct synced.
  - by exists [true].
  - exists (false :: answers). by rewrite IH.
Qed.

Lemma filter_HasSynced (f : @Event HelmChartSpec HelmChartStatus -> bool) answers :
  (forall b, f (HasSynced b) = false) ->
  List.filter f (map HasSynced answers) = [].
Proof.
  intros Hf. induction answers as [|b answers IH]; [done|]. cbn. by rewrite Hf.
Qed.

Lemma filter_queue_GoWorker i n :
  List.filter (@is_queue_event HelmChartSpec HelmChartStatus) (map GoWorker (seq i n)) = [].
Proof. revert i. induction n as [|n IH]; intros i; [done|]. cbn. apply IH. Qed.

(** [Run] and the work queue: on every path, synced or not, with any
    number of workers, the last of [Run]'s own calls is [ShutDown], and
    [Run] itself calls nothing else on the queue.  A worker count of zero
    or less starts no worker. *)
Theorem Run_shutdown s workers polls :
  exists t,
    trace_of (Run workers polls s) = t ++ [QShutDown]
    /\ List.filter is_queue_event t = []
    /\ ((workers <= 0)%Z -> List.filter is_GoWorker t = []).
Proof.
  destruct (WaitForCacheSync_polls polls s) as (answers & Hwait).
  rewrite (Run_unfold workers _ _ _ _ Hwait). project_run.
  eexists. split; [by rewrite app_assoc|].
  rewrite !List.filter_app, !filter_HasSynced by done. split.
  - destruct (existsb id polls); [|done].
    by rewrite List.filter_app, filter_queue_GoWorker.
  - intros Hworkers. destruct (existsb id polls); [|done].
    by replace (Z.to_nat workers) with 0 by lia.
Qed.

End Properties.

(** * The theorems at work in the concrete world *)

Import Scenario.

(** C1, on a run: the caller hands [UpdateChartStatus] the pointer the
    lister returned, the API server accepts the first write, and the object
    in the cache now carries the new status. *)
Lemma UpdateChartStatus_mutates_argument_witness :
  lister_Get [] "ns1" "foo" = (Some 1%positive, None)
  /\ heap (store0 []) !! 1%positive = Some foo
  /\ heap (store_of (UpdateChartStatus lister_Get client_UpdateStatus
                       (Some 1%positive) (Some "Ready") (store0 [])))
       !! 1%positive
     = Some (mkHelmChart "ns1" "foo" "7" "chart-1.0" "Ready").
Proof.
  split; [reflexivity|]. split; [reflexivity|].
  apply (UpdateChartStatus_mutates_argument lister_Get client_UpdateStatus
           (store0 []) 1%positive foo "Ready").
  reflexivity.
Defined.

(** C3, the claim as stated fails: an add notification and an update
    notification that carry an object of another type make the handler
    panic; no error is reported. *)
Lemma unchecked_assertion_panics :
  addHelmChart (VOther "*v1.Pod") (store0 []) = (store0 [], [], Panicked)
  /\ updateHelmChart (VHelmChart (Some 1%positive)) (VOther "*v1.Pod") (store0 [])
     = (store0 [], [], Panicked).
Proof. split; reflexivity. Qed.

(** C3 (amended), on runs: a delete notification carrying a Pod, and one
    carrying a tombstone that wraps a Pod, are reported and dropped; an add
    notification carrying nil, one carrying a tombstone that wraps the
    chart [foo], and an update notification whose new object is that
    tombstone, panic. *)
Lemma malformed_notification_witness :
  deleteHelmChart (VOther "*v1.Pod") (store0 [])
  = (store0 [],
     [HandleError (Errorf_couldnt_get_object_from_tombstone (VOther "*v1.Pod"))],
     Return tt)
  /\ deleteHelmChart (VDeletedFinalStateUnknown "ns1/foo" (VOther "*v1.Pod")) (store0 [])
     = (store0 [],
        [HandleError (Errorf_tombstone_contained_object_that_is_not_a_HelmChart
                        (VDeletedFinalStateUnknown "ns1/foo" (VOther "*v1.Pod")))],
        Return tt)
  /\ addHelmChart VNil (store0 []) = (store0 [], [], Panicked)
  /\ addHelmChart (VDeletedFinalStateUnknown "ns1/foo" (VHelmChart (Some 1%positive)))
       (store0 [])
     = (store0 [], [], Panicked)
  /\ updateHelmChart (VHelmChart (Some 1%positive))
       (VDeletedFinalStateUnknown "ns1/foo" (VHelmChart (Some 1%positive))) (store0 [])
     = (store0 [], [], Panicked).
Proof.
  split; [|split; [|split; [|split]]].
  - apply (proj1 (malformed_notification (store0 []) (VOther "*v1.Pod") VNil None) eq_refl).
  - apply (proj1 (malformed_notification (store0 [])
                    (VDeletedFinalStateUnknown "ns1/foo" (VOther "*v1.Pod")) VNil None)
             eq_refl).
  - apply (proj2 (malformed_notification (store0 []) VNil VNil None) eq_refl).
  - apply (proj2 (malformed_notification (store0 [])
                    (VDeletedFinalStateUnknown "ns1/foo" (VHelmChart (Some 1%positive)))
                    VNil None) eq_refl).
  - apply (proj2 (malformed_notification (store0 [])
                    (VDeletedFinalStateUnknown "ns1/foo" (VHelmChart (Some 1%positive)))
                    VNil (Some 1%positive)) eq_refl).
Defined.

(** C4, on a run: [foo'] differs from [foo] in resource version and status
    only, [foo2] has another Spec. *)
Lemma updateHelmChart_spec_filter_witness :
  updateHelmChart (VHelmChart (Some 1%positive)) (VHelmChart (Some 2%positive)) (store0 [])
  = (store0 [], [], Return tt)
  /\ updateHelmChart (VHelmChart (Some 1%positive)) (VHelmChart (Some 3%positive)) (store0 [])
     = (store0 [], [QAdd (VString "ns1/foo")], Return tt).
Proof.
  split.
  - apply (proj1 (updateHelmChart_spec_filter (store0 []) 1%positive 2%positive foo foo'
                    eq_refl eq_refl)).
    reflexivity.
  - apply (proj2 (updateHelmChart_spec_filter (store0 []) 1%positive 3%positive foo foo2
                    eq_refl eq_refl)).
    discriminate.
Defined.



(** C7, on the key [a/b/c]. *)
Lemma malformed_key_dropped_witness :
  syncHandler lister_Get handler_ok "a/b/c" (store0 [])
  = (store0 [], [HandleError (Errorf_invalid_resource_key "a/b/c")], Return None)
  /\ processNextWorkItem lister_Get handler_ok (VString "a/b/c") false (store0 [])
     = (store0 [],
        [HandleError (Errorf_invalid_resource_key "a/b/c");
         QForget (VString "a/b/c"); QDone (VString "a/b/c")],
        Return true).
Proof.
  apply (malformed_key_dropped lister_Get handler_ok (store0 []) "a/b/c"
           (Errorf_unexpected_key_format "a/b/c")).
  reflexivity.
Defined.

(** C8, on the key [ns1/bar], which the cache does not hold, and on the key
    [ns1/broken], whose lookup fails. *)
Lemma lookup_failure_witness :
  processNextWorkItem lister_Get handler_ok (VString "ns1/bar") false (store0 [])
  = (store0 [],
     [CallListerGet "ns1" "bar" (None, Some (StatusError StatusReasonNotFound "not found"));
      QForget (VString "ns1/bar"); QDone (VString "ns1/bar")],
     Return true)
  /\ processNextWorkItem lister_Get handler_ok (VString "ns1/broken") false (store0 [])
     = (store0 [],
        [CallListerGet "ns1" "broken" (None, Some (NewError "cache failure"));
         QAddRateLimited (VString "ns1/broken"); QDone (VString "ns1/broken");
         HandleError (Errorf_error_syncing "ns1/broken" (NewError "cache failure"))],
        Return true).
Proof.
  split.
  - apply (lookup_failure lister_Get handler_ok (store0 []) "ns1/bar" "ns1" "bar" None
             (StatusError StatusReasonNotFound "not found") eq_refl eq_refl).
    reflexivity.
  - apply (lookup_failure lister_Get handler_ok (store0 []) "ns1/broken" "ns1" "broken" None
             (NewError "cache failure") eq_refl eq_refl).
    reflexivity.
Defined.

(** C10, on two starts with two workers: the caches sync at the second
    poll, and the caches never sync. *)
Lemma Run_cold_start_barrier_witness :
  In (@HasSynced string string true) [HasSynced false; HasSynced true]
  /\ List.filter is_GoWorker (trace_of (Run 2 [false; true] (store0 [])))
     = [GoWorker 0; GoWorker 1]
  /\ List.filter is_GoWorker (trace_of (Run 2 [false; false] (store0 []))) = [].
Proof.
  split; [|split].
  - apply (proj1 (proj2 (Run_cold_start_barrier (store0 []) 2 [false; true]))
             [HasSynced false; HasSynced true] 0 [GoWorker 1; AwaitStop; QShutDown]).
    reflexivity.
  - apply (proj2 (proj2 (proj2 (Run_cold_start_barrier (store0 []) 2 [false; true])))).
    reflexivity.
  - apply (proj1 (proj2 (proj2 (Run_cold_start_barrier (store0 []) 2 [false; false])))).
    reflexivity.
Defined.

(** The status persister on a run: two conflicts, then the write is
    accepted.  The first write goes through the caller's pointer, the
    retries through copies at new addresses. *)
Example UpdateChartStatus_two_conflicts :
  trace_of (UpdateChartStatus lister_Get client_UpdateStatus
              (Some 1%positive) (Some "Ready") (store0 [conflict; conflict]))
  = [CallUpdateStatus 1%positive foo_ready conflict;
     CallListerGet "ns1" "foo" (Some 1%positive, None);
     CallUpdateStatus 4%positive foo_ready conflict;
     CallListerGet "ns1" "foo" (Some 1%positive, None);
     CallUpdateStatus 5%positive foo_ready None]
  /\ outcome_of (UpdateChartStatus lister_Get client_UpdateStatus
                   (Some 1%positive) (Some "Ready") (store0 [conflict; conflict]))
     = Return None.
Proof. split; reflexivity. Qed.

(** C9, on two runs: the API server answers every write with a conflict,
    and the API server accepts the third write.  In the second run the
    retry writes through the copy at address 4, and the store holds what
    was sent. *)
Lemma UpdateChartStatus_retry_witness :
  (length (writes (trace_of (UpdateChartStatus lister_Get client_UpdateStatus
                               (Some 1%positive) (Some "Ready") (store0 always_conflict))))
   = 5
   /\ exists w,
        last (writes (trace_of (UpdateChartStatus lister_Get client_UpdateStatus
                                  (Some 1%positive) (Some "Ready") (store0 always_conflict))))
        = Some w
        /\ conflict = w.2)
  /\ outcome_of (UpdateChartStatus lister_Get client_UpdateStatus
                   (Some 1%positive) (Some "Ready") (store0 [conflict; conflict]))
     = Return None
  /\ heap (store_of (UpdateChartStatus lister_Get client_UpdateStatus
                       (Some 1%positive) (Some "Ready") (store0 [conflict; conflict])))
       !! 4%positive
     = Some foo_ready.
Proof.
  split; [|split].
  - apply (proj1 (proj2 (proj2 (proj2
             (UpdateChartStatus_retry lister_Get client_UpdateStatus
                (store0 always_conflict) 1%positive foo "Ready" eq_refl))))
             conflict).
    + reflexivity.
    + vm_compute. repeat constructor.
  - apply (proj1 (proj2 (proj2 (proj2 (proj2
             (UpdateChartStatus_retry lister_Get client_UpdateStatus
                (store0 [conflict; conflict]) 1%positive foo "Ready" eq_refl)))))
             5%positive foo_ready).
    reflexivity.
  - apply (proj1 (proj2 (proj2
             (UpdateChartStatus_retry lister_Get client_UpdateStatus
                (store0 [conflict; conflict]) 1%positive foo "Ready" eq_refl)))
             4%positive foo_ready conflict).
    apply list_elem_of_further, list_elem_of_here.
Defined.

(** The key of [ns1/foo] splits into [ns1] and [foo]. *)
Lemma enqueued_key_splits_witness :
  SplitMetaNamespaceKey (MetaNamespaceKey "ns1" "foo") = ("ns1", "foo", None)
  /\ SplitMetaNamespaceKey (MetaNamespaceKey "" "cluster-wide") = ("", "cluster-wide", None).
Proof.
  split.
  - apply (enqueued_key_splits "ns1" "foo"); reflexivity.
  - apply (enqueued_key_splits "" "cluster-wide"); reflexivity.
Defined.

Lemma live_notification_enqueues_key_witness :
  addHelmChart (VHelmChart (Some 1%positive)) (store0 [])
  = (store0 [], [QAdd (VString "ns1/foo")], Return tt)
  /\ deleteHelmChart (VHelmChart (Some 1%positive)) (store0 [])
     = (store0 [], [QAdd (VString "ns1/foo")], Return tt).
Proof.
  apply (live_notification_enqueues_key (store0 []) 1%positive foo). reflexivity.
Defined.


(** The caller passes a copy of its own, at address 2, and every write
    meets a conflict: the object of the cache, at address 1, is what it
    was. *)
Lemma UpdateChartStatus_leaves_other_objects_witness :
  heap (store_of (UpdateChartStatus lister_Get client_UpdateStatus
                    (Some 2%positive) (Some "Failed") (store0 always_conflict)))
    !! 1%positive
  = Some foo.
Proof.
  apply (UpdateChartStatus_leaves_other_objects lister_Get client_UpdateStatus
           (store0 always_conflict) 2%positive foo' "Failed" 1%positive).
  - reflexivity.
  - by eexists.
  - discriminate.
Defined.

(** ** Further properties, in the concrete world *)

(** The controller of the concrete world registers its three handlers; a
    delete notification carrying a tombstone that wraps [foo], delivered
    through them, leaves the store alone and calls nothing. *)
Example NewController_registers :
  NewController client_UpdateStatus lister_Get (Some handler_ok)
  = (Some (mkController client_UpdateStatus lister_Get handler_ok), None,
     [mkResourceEventHandlerFuncs
        (Some addHelmChart) (Some updateHelmChart) (Some deleteHelmChart)])
  /\ deliver (mkResourceEventHandlerFuncs
                (Some addHelmChart) (Some updateHelmChart) (Some deleteHelmChart))
       (OnDelete (VDeletedFinalStateUnknown "ns1/foo" (VHelmChart (Some 1%positive))))
       (store0 [])
     = (store0 [], [], Panicked).
Proof. split; reflexivity. Qed.

Lemma MetaNamespaceKey_injective_witness :
  MetaNamespaceKey "ns1" "foo" = "ns1/foo" /\ ("ns1" = "ns1" /\ "foo" = "foo").
Proof.
  split; [reflexivity|].
  apply (MetaNamespaceKey_injective "ns1" "foo" "ns1" "foo"); reflexivity.
Defined.

(** The keys [a//b], with two slashes, and the empty key. *)
Lemma syncHandler_key_format_witness :
  syncHandler lister_Get handler_ok "a//b" (store0 [])
  = (store0 [], [HandleError (Errorf_invalid_resource_key "a//b")], Return None)
  /\ exists ns name rest,
       trace_of (syncHandler lister_Get handler_ok "" (store0 []))
       = CallListerGet ns name (lister_Get [] ns name) :: rest
       /\ (count_slash "" = 0 -> ns = "" /\ name = "").
Proof.
  split.
  - apply (proj1 (syncHandler_key_format lister_Get handler_ok (store0 []) "a//b")).
    apply le_n.
  - apply (proj2 (syncHandler_key_format lister_Get handler_ok (store0 []) "")).
    apply le_S, le_n.
Defined.


(** Every write meets a conflict: five failed writes, five copies. *)
Lemma UpdateChartStatus_allocation_bound_witness :
  size (heap (store_of (UpdateChartStatus lister_Get client_UpdateStatus
                          (Some 1%positive) (Some "Ready") (store0 always_conflict))))
  <= size (heap (store0 always_conflict))
     + length (List.filter is_failed_write
                 (trace_of (UpdateChartStatus lister_Get client_UpdateStatus
                              (Some 1%positive) (Some "Ready") (store0 always_conflict))))
  /\ length (List.filter is_failed_write
               (trace_of (UpdateChartStatus lister_Get client_UpdateStatus
                            (Some 1%positive) (Some "Ready") (store0 always_conflict))))
     = 5.
Proof.
  split; [|reflexivity].
  apply (UpdateChartStatus_allocation_bound lister_Get client_UpdateStatus
           (store0 always_conflict) 1%positive foo "Ready").
  reflexivity.
Defined.

Lemma UpdateChartStatus_calls_witness :
  length (List.filter is_CallListerGet
            (trace_of (UpdateChartStatus lister_down client_UpdateStatus
                         (Some 1%positive) (Some "Ready") (store0 [conflict; conflict]))))
  = length (List.filter is_failed_write
              (trace_of (UpdateChartStatus lister_down client_UpdateStatus
                           (Some 1%positive) (Some "Ready") (store0 [conflict; conflict]))))
  /\ length (List.filter is_HandleError
               (trace_of (UpdateChartStatus lister_down client_UpdateStatus
                            (Some 1%positive) (Some "Ready") (store0 [conflict; conflict]))))
     = 2.
Proof.
  split; [|reflexivity].
  apply (UpdateChartStatus_calls lister_down client_UpdateStatus
           (store0 [conflict; conflict]) 1%positive foo "Ready").
  reflexivity.
Defined.

(** The API server is unreachable: one write, the error comes back.  The
    write fails with [ErrWaitTimeout]: one write, and nil comes back. *)
Lemma UpdateChartStatus_error_not_retried_witness :
  writes (trace_of (UpdateChartStatus lister_Get client_UpdateStatus
                      (Some 1%positive) (Some "Ready")
                      (store0 [Some (NewError "connection refused"); None])))
  = [(1%positive, foo_ready, Some (NewError "connection refused"))]
  /\ outcome_of (UpdateChartStatus lister_Get client_UpdateStatus
                   (Some 1%positive) (Some "Ready")
                   (store0 [Some (NewError "connection refused"); None]))
     = Return (Some (NewError "connection refused"))
  /\ outcome_of (UpdateChartStatus lister_Get client_UpdateStatus
                   (Some 1%positive) (Some "Ready")
                   (store0 [Some ErrWaitTimeout; None]))
     = Return None.
Proof.
  destruct (UpdateChartStatus_error_not_retried lister_Get client_UpdateStatus
              (store0 [Some (NewError "connection refused"); None])
              1%positive foo "Ready" [None] (NewError "connection refused")
              eq_refl eq_refl eq_refl)
    as (Hwrites & _ & Hout).
  destruct (UpdateChartStatus_error_not_retried lister_Get client_UpdateStatus
              (store0 [Some ErrWaitTimeout; None])
              1%positive foo "Ready" [None] ErrWaitTimeout
              eq_refl eq_refl eq_refl)
    as (_ & _ & Hout').
  split; [exact Hwrites|]. split.
  - apply Hout; [|discriminate]. intros u [= <-]. by eexists.
  - apply Hout'; [|reflexivity]. intros u [= <-]. by eexists.
Defined.

(** A start that asks for a negative number of workers. *)
Lemma Run_shutdown_witness :
  trace_of (Run (-3) [true] (store0 []))
  = [@HasSynced string string true; AwaitStop; QShutDown]
  /\ exists t,
       trace_of (Run (-3) [true] (store0 [])) = t ++ [QShutDown]
       /\ List.filter is_queue_event t = []
       /\ ((-3 <= 0)%Z -> List.filter is_GoWorker t = []).
Proof.
  split; [reflexivity|].
  apply (Run_shutdown (store0 []) (-3) [true]).
Defined.

(** The worker on three answers of [Get]: a key that syncs, an item that is
    no string, and the shutdown. *)
Example runWorker_two_items :
  trace_of (runWorker lister_Get handler_ok
              [(VString "ns1/foo", false); (VOther "int", false); (VNil, true);
               (VString "ns1/foo", false)]
              (store0 []))
  = [CallListerGet "ns1" "foo" (Some 1%positive, None);
     CallSyncHandler (Some 1%positive) (Return None);
     QForget (VString "ns1/foo"); QDone (VString "ns1/foo");
     QForget (VOther "int");
     HandleError (Errorf_expected_string_in_workqueue (VOther "int"));
     QDone (VOther "int")].
Proof. reflexivity. Qed.

(** The worker and a handler that panics: the first item is taken, its
    [Done] is called, and the panic ends the loop; the second item is never
    taken. *)
Example runWorker_handler_panics :
  runWorker lister_Get handler_panicking
    [(VString "ns1/foo", false); (VString "ns1/bar", false); (VNil, true)]
    (store0 [])
  = (store0 [],
     [CallListerGet "ns1" "foo" (Some 1%positive, None);
      CallSyncHandler (Some 1%positive) Panicked;
      QDone (VString "ns1/foo")],
     Panicked).
Proof. reflexivity. Qed.
